(** * Trading Journal Pro: valuation and metrics of [app.py]

    A shallow embedding of the computational core of [src/app.py]: the
    price lookup [get_current_price], the valuation [calculate_pnl], the
    loading block that builds the data frame [df], the creation-time
    [risk_reward_ratio], and the dashboard aggregates ([win_rate],
    [total_pnl], [open_pnl], the equity curve).

    Conventions of the embedding.
    - A pandas float cell is a [num]: [NaN] (pandas' missing value) or an
      exact rational [Num q].  IEEE rounding and infinities are not
      modelled; decimal arithmetic is exact.  The statements are kept to
      what survives rounding: sums are followed in the order the code
      adds, and never regrouped or reordered.  Where rounding shows, the
      binary64 values are computed with the kernel's floats.
    - Python code that may raise lives in the exception monad [py];
      [try_except] is the [try: ... except: ...] statement.
    - A data frame is the list of its rows, in ledger order.  The sheet is
      taken to carry the columns [app.py] reads, so the
      ['col' in df.columns] tests of the dashboard are true.
    - Library calls are modelled by their documented behaviour:
      [pd.to_numeric(errors='coerce')], [pd.to_datetime],
      [Series.unique], [Series.sum], [Series.cumsum],
      [DataFrame.sort_values]. *)

From Stdlib Require Import QArith Qcanon Qcabs.
From Stdlib Require Import PrimFloat.
From stdpp Require Import base strings gmap list numbers sorting.

Local Open Scope Z_scope.
Local Open Scope Qc_scope.

(** ** Numbers *)

(** A float64 cell of the frame. *)
Inductive num : Type :=
| NaN : num
| Num (q : Qc) : num.

Global Instance num_eq_dec : EqDecision num.
Proof. solve_decision. Defined.

(** [pd.isna] / [Series.isna] on a float cell. *)
Definition isna (x : num) : bool :=
  match x with NaN => true | Num _ => false end.

(** [Series.notna]. *)
Definition notna (x : num) : bool := negb (isna x).

(** Float subtraction and multiplication: NaN propagates. *)
Definition fsub (x y : num) : num :=
  match x, y with
  | Num a, Num b => Num (a - b)
  | _, _ => NaN
  end.

Definition fmul (x y : num) : num :=
  match x, y with
  | Num a, Num b => Num (a * b)
  | _, _ => NaN
  end.

(** Comparison [x > 0] on a float cell: false on NaN. *)
Definition gt0 (x : num) : bool :=
  match x with
  | NaN => false
  | Num q => bool_decide (0 < q)
  end.

(** Integer literals as decimals. *)
Definition dec (z : Z) : Qc := Qc_of_Z z.

(** ** Python exceptions *)

Inductive exn : Type :=
| RequestException      (* requests.get: timeout, connection error *)
| JSONDecodeError       (* response.json() on a body that is not JSON *)
| LookupError           (* KeyError / IndexError / TypeError on the envelope *)
| ValueError            (* float() of something that is not a number *)
| ParserError (s : string)  (* pd.to_datetime on an unparseable string *)
| SheetError            (* gspread failure while reading the ledger *)
| ZeroDivisionError.

Inductive py (A : Type) : Type :=
| Return (a : A) : py A
| Raise (e : exn) : py A.
Arguments Return {A} a.
Arguments Raise {A} e.

Global Instance py_ret : MRet py := fun A a => Return a.
Global Instance py_bind : MBind py := fun A B f m =>
  match m with
  | Return a => f a
  | Raise e => Raise e
  end.

(** [try: body  except: handler]  (a bare [except] catches everything). *)
Definition try_except {A} (body : py A) (handler : exn → py A) : py A :=
  match body with
  | Return a => Return a
  | Raise e => handler e
  end.

Definition raises {A} (m : py A) : Prop := ∃ e, m = Raise e.

(** A [for] loop whose body may raise, building a list. *)
Fixpoint py_mapM {A B} (f : A → py B) (l : list A) : py (list B) :=
  match l with
  | [] => mret []
  | x :: l' => y ← f x; ys ← py_mapM f l'; mret (y :: ys)
  end.

(** ** Rows of the frame *)

(** A timestamp after [pd.to_datetime]: an instant (seconds) or NaT. *)
Definition datetime : Type := option Z.

(** A row of [df] after the numeric and timestamp conversions
    (lines 66-73), restricted to the columns the computations read. *)
Record trade : Type := Trade {
  timestamp : datetime;
  pair : string;
  direction : string;
  entry_price : num;
  stop_loss : num;
  take_profit : num;
  position_size : num;
  exit_price : num;
  pnl : num;
  setup_quality : string
}.

(** The dict [current_prices]: a float or [None] per queried pair.  A
    price read from the feed is a finite decimal. *)
Abbreviation price_map := (gmap string (option Qc)).

(** [current_prices.get(k)]: [None] for a missing key and for a stored
    [None] alike. *)
Definition dict_get (m : price_map) (k : string) : option Qc :=
  default None (m !! k).

(** Truthiness of [current_price] in [if current_price:]: [None] and the
    float [0.0] are false. *)
Definition truthy (p : option Qc) : bool :=
  match p with
  | None => false
  | Some q => negb (bool_decide (q = 0))
  end.

(** [calculate_pnl(row, current_prices)], lines 42-52. *)
Definition calculate_pnl (row : trade) (current_prices : price_map) : num :=
  if isna (exit_price row) then
    let current_price := dict_get current_prices (pair row) in
    if truthy current_price then
      match current_price with
      | Some p =>
          if String.eqb (direction row) "LONG" then
            fmul (fsub (Num p) (entry_price row)) (position_size row)
          else  (* SHORT *)
            fmul (fsub (entry_price row) (Num p)) (position_size row)
      | None => pnl row  (* not reached: None is not truthy *)
      end
    else pnl row
  else pnl row.

(** ** The price feed and [get_current_price] *)

(** What one HTTP query of the ticker endpoint comes back with.
    [Envelope rc lp] is a body that parses as JSON; [rc] is
    [data['ret_code']] ([None] when that lookup raises) and [lp] is
    [float(data['result'][0]['last_price'])] ([None] when that
    expression raises). *)
Inductive reply : Type :=
| NoResponse                 (* timeout, network error *)
| NotJson                    (* malformed body *)
| Envelope (ret_code : option Z) (last_price : option Qc).

Definition feed : Type := string → reply.

(** Code that talks to the feed: an exception monad threaded with the
    log of the symbols queried so far.  The log survives a raise. *)
Definition io (A : Type) : Type := list string → py A * list string.

Global Instance io_ret : MRet io := fun A a log => (Return a, log).
Global Instance io_bind : MBind io := fun A B f m log =>
  match m log with
  | (Return a, log') => f a log'
  | (Raise e, log') => (Raise e, log')
  end.

Definition lift_py {A} (m : py A) : io A := fun log => (m, log).

Definition io_try_except {A} (body : io A) (handler : exn → io A) : io A :=
  fun log =>
    match body log with
    | (Return a, log') => (Return a, log')
    | (Raise e, log') => handler e log'
    end.

(** [requests.get(url, timeout=5)]: one query for [symbol]. *)
Definition requests_get (api : feed) (symbol : string) : io reply :=
  fun log =>
    (match api symbol with
     | NoResponse => Raise RequestException
     | r => Return r
     end, log ++ [symbol]).

(** [response.json()]. *)
Definition response_json (r : reply) : py (option Z * option Qc) :=
  match r with
  | Envelope rc lp => Return (rc, lp)
  | _ => Raise JSONDecodeError
  end.

(** [data['ret_code']]. *)
Definition data_ret_code (data : option Z * option Qc) : py Z :=
  match data.1 with
  | Some rc => Return rc
  | None => Raise LookupError
  end.

(** [float(data['result'][0]['last_price'])]. *)
Definition data_last_price (data : option Z * option Qc) : py Qc :=
  match data.2 with
  | Some p => Return p
  | None => Raise ValueError
  end.

(** [get_current_price(symbol)], lines 31-40.  Falling off the end of
    the [try] body returns [None]. *)
Definition get_current_price (api : feed) (symbol : string) : io (option Qc) :=
  io_try_except
    (response ← requests_get api symbol;
     data ← lift_py (response_json response);
     rc ← lift_py (data_ret_code data);
     if bool_decide (rc = 0%Z) then
       p ← lift_py (data_last_price data);
       mret (Some p)
     else mret None)
    (fun _ => mret None).

(** The price a reply amounts to: the last price of a success envelope
    ([ret_code] 0 with a readable price), nothing otherwise. *)
Definition quote_of (r : reply) : option Qc :=
  match r with
  | Envelope (Some 0%Z) (Some p) => Some p
  | _ => None
  end.

(** The ways a lookup fails: no response, a body that is not JSON, an
    envelope without [ret_code] or without a readable price, a non-zero
    [ret_code]. *)
Definition lookup_fails (r : reply) : Prop :=
  match r with
  | NoResponse | NotJson => True
  | Envelope None _ => True
  | Envelope (Some rc) lp => rc ≠ 0%Z ∨ lp = None
  end.

(** [Series.unique()]: distinct values in order of first appearance. *)
Fixpoint unique (l : list string) : list string :=
  match l with
  | [] => []
  | x :: l' => x :: filter (fun y => y ≠ x) (unique l')
  end.

(** Lines 76-79: [for pair in unique_pairs:
    current_prices[pair] = get_current_price(pair)]. *)
Fixpoint fetch_prices (api : feed) (unique_pairs : list string)
    (current_prices : price_map) : io price_map :=
  match unique_pairs with
  | [] => mret current_prices
  | pair :: rest =>
      price ← get_current_price api pair;
      fetch_prices api rest (<[pair := price]> current_prices)
  end.

(** ** Loading the ledger (lines 59-86) *)

(** A numeric cell as [get_all_records] hands it over: a number, or text
    that is not a number (the empty string included). *)
Inductive cell : Type :=
| CellNum (q : Qc)
| CellText (s : string).

(** [pd.to_numeric(..., errors='coerce')] on one cell. *)
Definition to_numeric (c : cell) : num :=
  match c with
  | CellNum q => Num q
  | CellText _ => NaN
  end.

(** A timestamp cell: text [pd.to_datetime] parses to an instant, an
    empty cell, or text it cannot parse. *)
Inductive raw_ts : Type :=
| Parseable (t : Z)
| Blank
| Malformed (s : string).

(** [pd.to_datetime] on one cell with the default [errors='raise']: an
    empty cell becomes NaT, unparseable text raises. *)
Definition to_datetime (c : raw_ts) : py datetime :=
  match c with
  | Parseable t => Return (Some t)
  | Blank => Return None
  | Malformed s => Raise (ParserError s)
  end.

(** A record of [sheet.get_all_records()]. *)
Record raw_row : Type := RawRow {
  r_timestamp : raw_ts;
  r_pair : string;
  r_direction : string;
  r_entry_price : cell;
  r_stop_loss : cell;
  r_take_profit : cell;
  r_position_size : cell;
  r_exit_price : cell;
  r_pnl : cell;
  r_setup_quality : string
}.

(** Lines 66-73 on one row: numeric coercion, then the timestamp.
    [pd.to_datetime] converts the whole column and raises at the first
    text it cannot parse. *)
Definition convert_row (r : raw_row) : py trade :=
  ts ← to_datetime (r_timestamp r);
  mret (Trade ts (r_pair r) (r_direction r)
          (to_numeric (r_entry_price r)) (to_numeric (r_stop_loss r))
          (to_numeric (r_take_profit r)) (to_numeric (r_position_size r))
          (to_numeric (r_exit_price r)) (to_numeric (r_pnl r))
          (r_setup_quality r)).

(** A row of [df] once the column [current_pnl] is added (line 82). *)
Record vrow : Type := VRow {
  tr :> trade;
  current_pnl : num
}.

(** [df.apply(calculate_pnl, axis=1, args=(current_prices,))]. *)
Definition apply_calculate_pnl (df : list trade) (current_prices : price_map)
    : list vrow :=
  (fun row => VRow row (calculate_pnl row current_prices)) <$> df.

(** What the loading block leaves behind: the frame [df] and the
    [st.error] banner, if one was shown. *)
Record loaded : Type := Loaded {
  df : list vrow;
  banner : option exn
}.

(** Lines 75-82 on the converted frame: resolve the prices of the
    distinct pairs, then add the column [current_pnl]. *)
Definition value_frame (api : feed) (frame : list trade) : io (list vrow) :=
  let unique_pairs := unique (pair <$> frame) in
  current_prices ← fetch_prices api unique_pairs ∅;
  mret (apply_calculate_pnl frame current_prices).

(** The body of the [try] at lines 60-82.  [sheet] is the outcome of
    [setup_gsheet().get_all_records()]. *)
Definition load_body (api : feed) (sheet : py (list raw_row)) : io (list vrow) :=
  records ← lift_py sheet;
  match records with
  | [] => mret []                       (* df.empty *)
  | _ =>
      frame ← lift_py (py_mapM convert_row records);
      value_frame api frame
  end.

(** Lines 59-86: on any exception the banner is shown and [df] is reset
    to the empty frame. *)
Definition load (api : feed) (sheet : py (list raw_row)) : io loaded :=
  io_try_except
    (frame ← load_body api sheet; mret (Loaded frame None))
    (fun e => mret (Loaded [] (Some e))).

(** One refresh, from an empty query log. *)
Definition run {A} (m : io A) : py A * list string := m [].

(** ** Trade creation (lines 110-131) *)

(** Python float division. *)
Definition py_div (a b : Qc) : py Qc :=
  if bool_decide (b = 0) then Raise ZeroDivisionError else Return (a / b).

(** The ['risk_reward_ratio'] entry of [new_trade], line 126.  The form
    inputs are floats ([st.number_input]). *)
Definition risk_reward_ratio (entry_price stop_loss take_profit : Qc) : py Qc :=
  if negb (bool_decide (stop_loss = 0)) then
    py_div (Qcabs (take_profit - entry_price)) (Qcabs (entry_price - stop_loss))
  else Return 0.

(** The fields of the [new_trade] dict that hold numbers or blanks. *)
Record new_row : Type := NewRow {
  n_pair : string;
  n_direction : string;
  n_entry_price : Qc;
  n_stop_loss : Qc;
  n_take_profit : Qc;
  n_position_size : Qc;
  n_exit_price : cell;
  n_pnl : cell;
  n_risk_reward_ratio : Qc
}.

Definition new_trade (pair direction : string)
    (entry_price stop_loss take_profit position_size : Qc) : py new_row :=
  rr ← risk_reward_ratio entry_price stop_loss take_profit;
  mret (NewRow pair direction entry_price stop_loss take_profit position_size
          (CellText "") (CellText "") rr).

(** ** Dashboard metrics (lines 141-175) *)

Definition total_trades (df : list vrow) : nat := length df.

(** [len(df[df['pnl'] > 0])]. *)
Definition winning_trades (df : list vrow) : nat :=
  length (filter (fun r : vrow => gt0 (pnl r)) df).

Definition Qc_of_nat (n : nat) : Qc := Qc_of_Z (Z.of_nat n).

(** [(winning_trades / total_trades * 100) if total_trades > 0 else 0]. *)
Definition win_rate (df : list vrow) : py Qc :=
  if bool_decide (0 < total_trades df)%nat then
    ratio ← py_div (Qc_of_nat (winning_trades df)) (Qc_of_nat (total_trades df));
    mret (ratio * dec 100)
  else Return 0.

(** [df[df['exit_price'].notna()]] and [df[df['exit_price'].isna()]]. *)
Definition closed_trades (df : list vrow) : list vrow :=
  filter (fun r : vrow => notna (exit_price r)) df.

Definition open_trades (df : list vrow) : list vrow :=
  filter (fun r : vrow => isna (exit_price r)) df.

(** [Series.sum()] with the default [skipna=True]; 0 on an empty or
    all-NaN column. *)
Fixpoint nansum (col : list num) : Qc :=
  match col with
  | [] => 0
  | NaN :: col' => nansum col'
  | Num q :: col' => q + nansum col'
  end.

Definition total_pnl (df : list vrow) : Qc :=
  nansum ((fun r : vrow => pnl r) <$> closed_trades df).

Definition open_pnl (df : list vrow) : Qc :=
  nansum (current_pnl <$> open_trades df).

(** [Series.cumsum()] with the default [skipna=True]: a NaN entry stays
    NaN and does not enter the running total. *)
Fixpoint cumsum_from (acc : Qc) (col : list num) : list num :=
  match col with
  | [] => []
  | NaN :: col' => NaN :: cumsum_from acc col'
  | Num q :: col' => Num (acc + q) :: cumsum_from (acc + q) col'
  end.

Definition cumsum (col : list num) : list num := cumsum_from 0 col.

(** The order [sort_values] uses on timestamps, with the default
    [na_position='last']: NaT after every instant. *)
Definition ts_le (a b : datetime) : Prop :=
  match a, b with
  | Some x, Some y => (x ≤ y)%Z
  | _, None => True
  | None, Some _ => False
  end.

Global Instance ts_le_dec : RelDecision ts_le.
Proof. intros [x|] [y|]; simpl; apply _. Defined.

Definition row_le (a b : vrow) : Prop := ts_le (timestamp a) (timestamp b).

Global Instance row_le_dec : RelDecision row_le.
Proof. intros a b. unfold row_le. apply _. Defined.

(** [frame.sort_values('timestamp')], line 174.  The call leaves [kind]
    at its default ['quicksort'], which pandas documents as not stable:
    the rows come back in ascending timestamp order, and which of two
    rows of equal timestamp comes first is the sorting routine's choice.
    A [tie_break] is that choice: [tie r x] tells whether [r], which
    precedes [x] in the frame, stays ahead of [x].  Rows without a
    timestamp are appended after the sorted ones in frame order
    ([na_position='last']). *)
Definition tie_break : Type := vrow → vrow → bool.

Definition stays_ahead (tie : tie_break) (r x : vrow) : bool :=
  match timestamp r, timestamp x with
  | Some a, Some b => (a <? b)%Z || ((a =? b)%Z && tie r x)
  | Some _, None => true
  | None, Some _ => false
  | None, None => true
  end.

Fixpoint insert_row (tie : tie_break) (r : vrow) (sorted : list vrow)
    : list vrow :=
  match sorted with
  | [] => [r]
  | x :: rest =>
      if stays_ahead tie r x then r :: x :: rest
      else x :: insert_row tie r rest
  end.

Definition sort_values (tie : tie_break) (frame : list vrow) : list vrow :=
  foldr (insert_row tie) [] frame.

(** The stable choice (ties keep the frame's order) and its opposite. *)
Definition ledger_order : tie_break := fun _ _ => true.
Definition reverse_ties : tie_break := fun _ _ => false.

(** The numbers of a column added one at a time from the left, NaN
    skipped: the running total [Series.cumsum] carries. *)
Definition running_from (acc : Qc) (col : list num) : Qc :=
  foldl (fun acc x => match x with NaN => acc | Num q => acc + q end) acc col.

Definition running_total (col : list num) : Qc := running_from 0 col.

(** The two series the chart plots (lines 174-177): [timestamp] and
    [cumulative_pnl] of [closed_trades_sorted]. *)
Definition cumulative_pnl (closed_trades_sorted : list vrow) : list num :=
  cumsum ((fun r : vrow => pnl r) <$> closed_trades_sorted).

Definition equity_curve (closed_trades_sorted : list vrow) : list (datetime * num) :=
  zip ((fun r : vrow => timestamp r) <$> closed_trades_sorted)
      (cumulative_pnl closed_trades_sorted).

(** Winners by state.  The specification's wording of [win_rate] counts
    the Closed winners only. *)
Definition closed_winners (df : list vrow) : nat :=
  length (filter (fun r : vrow => gt0 (pnl r)) (closed_trades df)).

Definition open_winners (df : list vrow) : nat :=
  length (filter (fun r : vrow => gt0 (pnl r)) (open_trades df)).

(** [current_prices] once the loop of lines 78-79 has run over [pairs]. *)
Definition prices_after (api : feed) (pairs : list string) (m : price_map)
    : price_map :=
  foldl (fun m p => <[p := quote_of (api p)]> m) m pairs.

(** A row valued against the feed's reply for its own pair. *)
Definition mark (api : feed) (row : trade) : vrow :=
  VRow row (calculate_pnl row {[ pair row := quote_of (api (pair row)) ]}).

(** ** Setup quality chart (lines 184-188) *)

Definition count_notna (col : list num) : nat :=
  length (filter (fun x : num => notna x) col).

(** [Series.mean()] with the default [skipna=True]: NaN on a column with
    no number in it. *)
Definition nanmean (col : list num) : num :=
  if bool_decide (count_notna col = 0%nat) then NaN
  else Num (nansum col / Qc_of_nat (count_notna col)).

(** The rows of one [setup_quality] group. *)
Definition quality_group (q : string) (df : list vrow) : list vrow :=
  filter (fun r : vrow => setup_quality r = q) df.

(** [df.groupby('setup_quality')['pnl'].mean()], line 185: the mean pnl
    per group, keyed by the group's label (the order of the bars is not
    modelled). *)
Definition quality_pnl (df : list vrow) : gmap string num :=
  list_to_map
    ((fun q => (q, nanmean ((fun r : vrow => pnl r) <$> quality_group q df)))
       <$> unique ((fun r : vrow => setup_quality r) <$> df)).

(** ** Rows derived from other rows *)

(** A row with another text in its direction cell. *)
Definition set_direction (d : string) (row : trade) : trade :=
  Trade (timestamp row) (pair row) d (entry_price row) (stop_loss row)
    (take_profit row) (position_size row) (exit_price row) (pnl row)
    (setup_quality row).

(** What [convert_row] makes of a record whose timestamp parses. *)
Definition coerce_row (r : raw_row) : trade :=
  Trade (match r_timestamp r with Parseable t => Some t | _ => None end)
    (r_pair r) (r_direction r)
    (to_numeric (r_entry_price r)) (to_numeric (r_stop_loss r))
    (to_numeric (r_take_profit r)) (to_numeric (r_position_size r))
    (to_numeric (r_exit_price r)) (to_numeric (r_pnl r))
    (r_setup_quality r).

Definition parses (r : raw_row) : Prop :=
  match r_timestamp r with Malformed _ => False | _ => True end.

Global Instance parses_dec (r : raw_row) : Decision (parses r).
Proof. unfold parses. destruct (r_timestamp r); apply _. Defined.

(** The record [get_all_records] hands back for a row written by
    [sheet.append_row(list(new_trade.values()))] (line 134): the numbers
    as numbers, the blank cells as empty text, the date as written by
    [strftime]. *)
Definition saved_record (date : Z) (quality : string) (n : new_row) : raw_row :=
  RawRow (Parseable date) (n_pair n) (n_direction n)
    (CellNum (n_entry_price n)) (CellNum (n_stop_loss n))
    (CellNum (n_take_profit n)) (CellNum (n_position_size n))
    (n_exit_price n) (n_pnl n) quality.

(** A numeric cell that holds a number. *)
Definition is_number (c : cell) : bool :=
  match c with CellNum _ => true | CellText _ => false end.

(** ** Binary64 sums *)




(** ** Sample ledgers *)

Definition sample_trade (d : string) (x pn : num) : trade :=
  Trade (Some 1%Z) "BTCUSDT" d (Num (dec 100)) (Num (dec 90)) (Num (dec 130))
    (Num (dec 10)) x pn "A".

Definition closed_at (t : Z) (pn : num) : vrow :=
  VRow (Trade (Some t) "BTCUSDT" "LONG" (Num (dec 100)) NaN NaN (Num (dec 10))
          (Num (dec 105)) pn "A") pn.

Definition sample_row (ts : raw_ts) (p : string) (x pn : cell) : raw_row :=
  RawRow ts p "LONG" (CellNum (dec 100)) (CellNum (dec 90)) (CellNum (dec 130))
    (CellNum (dec 10)) x pn "A".

(** An Open row (blank exit_price) on a pair the feed does not answer,
    with a number left in its pnl cell. *)
Definition stray_pnl_trade : trade :=
  Trade (Some 1%Z) "XRPUSDT" "LONG" (Num (dec 100)) NaN NaN (Num (dec 10))
    NaN (Num (dec 5)) "B".

Definition stray_frame : list vrow :=
  (VRow stray_pnl_trade (Num (dec 5)) :: [])%list.

(** Seventeen Closed rows with one timestamp, pnl 1, 2, ..., 17. *)
Definition seventeen_ties : list vrow :=
  (fun k => closed_at 5 (Num (Qc_of_nat k))) <$> seq 1 17.



(** An Open row whose position_size cell is blank. *)
Definition blank_size_trade : trade :=
  Trade (Some 1%Z) "BTCUSDT" "LONG" (Num (dec 100)) NaN NaN NaN NaN NaN "A".

(** The scenario of the specification: 50 at instant 1, -20 at instant 2. *)
Definition scenario_frame : list vrow :=
  [closed_at 1 (Num (dec 50)); closed_at 2 (Num (dec (-20)))].


(** A ledger of one good Closed row and one row whose timestamp does not
    parse, and the same ledger without the second row. *)
Definition good_ledger : list raw_row :=
  (sample_row (Parseable 1) "BTCUSDT" (CellNum (dec 105)) (CellNum (dec 50))
     :: [])%list.

Definition bad_ledger : list raw_row :=
  good_ledger
    ++ [sample_row (Malformed "yesterday") "BTCUSDT" (CellText "") (CellText "")].

(** A well-formed Open row on a pair the feed does not answer. *)
Definition unpriced_trade : trade :=
  Trade (Some 2%Z) "XRPUSDT" "SHORT" (Num (dec 100)) NaN NaN (Num (dec 10))
    NaN NaN "C".

(** A feed that knows BTCUSDT at 110, reports ZEROUSDT at 0, answers
    ETHUSDT with an error code, and does not answer anything else. *)
Definition sample_feed : feed := fun s =>
  if String.eqb s "BTCUSDT" then Envelope (Some 0%Z) (Some (dec 110))
  else if String.eqb s "ZEROUSDT" then Envelope (Some 0%Z) (Some 0)
  else if String.eqb s "ETHUSDT" then Envelope (Some 10001%Z) None
  else NoResponse.

(** Three records: an Open BTCUSDT trade, a Closed BTCUSDT trade with pnl
    50, and an ETHUSDT trade whose exit_price cell holds text. *)
Definition mixed_ledger : list raw_row :=
  [sample_row (Parseable 1) "BTCUSDT" (CellText "") (CellText "");
   sample_row (Parseable 2) "BTCUSDT" (CellNum (dec 105)) (CellNum (dec 50));
   sample_row Blank "ETHUSDT" (CellText "n/a") (CellText "")].

(** The two groups of the specification's chart example, A with pnl 10
    and 20 and B with pnl -5, and an Open A row with a blank pnl. *)
Definition graded (q : string) (x pn : num) : vrow :=
  VRow (Trade (Some 1%Z) "BTCUSDT" "LONG" (Num (dec 100)) NaN NaN
          (Num (dec 10)) x pn q) pn.

Definition graded_frame : list vrow :=
  [graded "A" (Num (dec 105)) (Num (dec 10));
   graded "B" (Num (dec 95)) (Num (dec (-5)));
   graded "A" (Num (dec 110)) (Num (dec 20));
   graded "A" NaN NaN].

(** * Properties *)

(** ** Decimal helpers *)

Lemma Qc_sub_diag (q : Qc) : q - q = 0.
Proof. ring. Qed.

Ltac qc_eval := apply Qc_is_canon; vm_compute; reflexivity.
Ltac qc_neq :=
  let H := fresh in intros H; apply (f_equal this) in H; vm_compute in H; discriminate H.

(** Evaluate the binds of the two monads. *)
Ltac py_simpl :=
  cbv [mbind mret py_bind py_ret io_bind io_ret lift_py io_try_except
       try_except] in *; simpl in *.

(** ** Feed replies *)

Lemma quote_of_fails (r : reply) : lookup_fails r → quote_of r = None.
Proof.
  destruct r as [| |[rc|] [p|]]; simpl; try done.
  - intros [Hrc|?]; [|done]. destruct rc; [by destruct Hrc|done..].
  - intros _. by destruct rc.
Qed.

(** ** Valuation *)

Section valuation.
Context (row : trade) (prices : price_map).

Lemma calculate_pnl_unfold_open :
  isna (exit_price row) = true →
  calculate_pnl row prices =
    match dict_get prices (pair row) with
    | Some p =>
        if bool_decide (p = 0) then pnl row
        else if String.eqb (direction row) "LONG"
             then fmul (fsub (Num p) (entry_price row)) (position_size row)
             else fmul (fsub (entry_price row) (Num p)) (position_size row)
    | None => pnl row
    end.
Proof.
  intros Hopen. unfold calculate_pnl. rewrite Hopen. simpl.
  destruct (dict_get prices (pair row)) as [p|]; simpl; [|done].
  by destruct (bool_decide (p = 0)).
Qed.

Lemma calculate_pnl_fallthrough :
  truthy (dict_get prices (pair row)) = false →
  calculate_pnl row prices = pnl row.
Proof.
  intros Hp. unfold calculate_pnl. rewrite Hp. by destruct (isna _).
Qed.

End valuation.

(** The valuation reads the price map at the row's pair only. *)
Lemma calculate_pnl_ext (row : trade) (m1 m2 : price_map) :
  dict_get m1 (pair row) = dict_get m2 (pair row) →
  calculate_pnl row m1 = calculate_pnl row m2.
Proof. intros E. unfold calculate_pnl. by rewrite E. Qed.

(** C1 (as the code has it).  An Open row (exit_price NaN) whose pair has
    a usable price [p] is valued (p - entry_price) * position_size when
    LONG and (entry_price - p) * position_size when SHORT; when p equals
    the entry price the value is, whatever the direction, 0 if
    position_size is a number and NaN if that cell is blank. *)
Theorem calculate_pnl_open_priced (row : trade) (prices : price_map) (p : Qc) :
  isna (exit_price row) = true →
  dict_get prices (pair row) = Some p →
  p ≠ 0 →
  (direction row = "LONG" →
     calculate_pnl row prices
       = fmul (fsub (Num p) (entry_price row)) (position_size row)) ∧
  (direction row = "SHORT" →
     calculate_pnl row prices
       = fmul (fsub (entry_price row) (Num p)) (position_size row)) ∧
  (∀ size, entry_price row = Num p → position_size row = Num size →
     calculate_pnl row prices = Num 0) ∧
  (entry_price row = Num p → position_size row = NaN →
     calculate_pnl row prices = NaN).
Proof.
  intros Hopen Hget Hp.
  rewrite calculate_pnl_unfold_open, Hget by done.
  rewrite bool_decide_eq_false_2 by done.
  split_and!.
  - by intros ->.
  - by intros ->.
  - intros size -> ->. destruct (String.eqb _ _); simpl;
      by rewrite Qc_sub_diag, Qcmult_0_l.
  - intros -> ->. by destruct (String.eqb _ _).
Qed.

(** The scenario of C1: entry 100, size 10, price 110 gives 100 LONG and
    -100 SHORT; price 100 gives 0 in both directions. *)
Lemma calculate_pnl_open_priced_scenario :
  calculate_pnl (sample_trade "LONG" NaN NaN) {[ "BTCUSDT" := Some (dec 110) ]}
    = Num (dec 100) ∧
  calculate_pnl (sample_trade "SHORT" NaN NaN) {[ "BTCUSDT" := Some (dec 110) ]}
    = Num (dec (-100)) ∧
  calculate_pnl (sample_trade "LONG" NaN NaN) {[ "BTCUSDT" := Some (dec 100) ]}
    = Num 0 ∧
  calculate_pnl (sample_trade "SHORT" NaN NaN) {[ "BTCUSDT" := Some (dec 100) ]}
    = Num 0.
Proof.
  split_and!.
  - rewrite (proj1 (calculate_pnl_open_priced
      (sample_trade "LONG" NaN NaN) {[ "BTCUSDT" := Some (dec 110) ]} (dec 110)
      ltac:(reflexivity) ltac:(vm_compute; reflexivity) ltac:(qc_neq))) by reflexivity.
    simpl. f_equal. qc_eval.
  - rewrite (proj1 (proj2 (calculate_pnl_open_priced
      (sample_trade "SHORT" NaN NaN) {[ "BTCUSDT" := Some (dec 110) ]} (dec 110)
      ltac:(reflexivity) ltac:(vm_compute; reflexivity) ltac:(qc_neq)))) by reflexivity.
    simpl. f_equal. qc_eval.
  - apply (proj1 (proj2 (proj2 (calculate_pnl_open_priced
      (sample_trade "LONG" NaN NaN) {[ "BTCUSDT" := Some (dec 100) ]} (dec 100)
      ltac:(reflexivity) ltac:(vm_compute; reflexivity) ltac:(qc_neq)))) (dec 10)); reflexivity.
  - apply (proj1 (proj2 (proj2 (calculate_pnl_open_priced
      (sample_trade "SHORT" NaN NaN) {[ "BTCUSDT" := Some (dec 100) ]} (dec 100)
      ltac:(reflexivity) ltac:(vm_compute; reflexivity) ltac:(qc_neq)))) (dec 10)); reflexivity.
Defined.

(** An Open LONG row, entry 100, with a blank position_size, at the price
    100: the value is NaN, not 0. *)
Lemma calculate_pnl_blank_size_sample :
  isna (exit_price blank_size_trade) = true ∧
  dict_get {[ "BTCUSDT" := Some (dec 100) ]} (pair blank_size_trade)
    = Some (dec 100) ∧
  entry_price blank_size_trade = Num (dec 100) ∧
  calculate_pnl blank_size_trade {[ "BTCUSDT" := Some (dec 100) ]} = NaN ∧
  calculate_pnl blank_size_trade {[ "BTCUSDT" := Some (dec 100) ]} ≠ Num 0.
Proof.
  split_and!; try (vm_compute; reflexivity).
  intros H. vm_compute in H. discriminate H.
Qed.

(** C2.  A Closed row (exit_price a number) is valued at its stored pnl,
    whatever the price map holds. *)
Theorem calculate_pnl_closed (row : trade) (prices : price_map) :
  notna (exit_price row) = true →
  calculate_pnl row prices = pnl row.
Proof.
  unfold notna, calculate_pnl. by destruct (isna (exit_price row)).
Qed.

Lemma calculate_pnl_closed_sample :
  notna (exit_price (sample_trade "LONG" (Num (dec 105)) (Num (dec 50)))) = true ∧
  calculate_pnl (sample_trade "LONG" (Num (dec 105)) (Num (dec 50)))
      {[ "BTCUSDT" := Some (dec 110) ]}
    = Num (dec 50).
Proof.
  split; [reflexivity|].
  apply (calculate_pnl_closed (sample_trade "LONG" (Num (dec 105)) (Num (dec 50)))).
  reflexivity.
Defined.

(** C10.  An Open row whose pair maps to the price 0 is not marked to
    market: the valuation returns the stored pnl (NaN on a row whose pnl
    is blank), exactly as it does when the lookup failed and the map
    holds None. *)
Theorem calculate_pnl_zero_price (row : trade) (prices : price_map) :
  isna (exit_price row) = true →
  dict_get prices (pair row) = Some 0 →
  calculate_pnl row prices = pnl row ∧
  (isna (pnl row) = true → calculate_pnl row prices = NaN) ∧
  calculate_pnl row prices = calculate_pnl row (<[pair row := None]> prices) ∧
  (∀ api_zero api_down : feed,
     api_zero (pair row) = Envelope (Some 0%Z) (Some 0) →
     lookup_fails (api_down (pair row)) →
     mark api_zero row = mark api_down row).
Proof.
  intros Hopen Hget.
  assert (calculate_pnl row prices = pnl row) as Hv.
  { apply calculate_pnl_fallthrough. by rewrite Hget. }
  split_and!; [done| | |].
  - rewrite Hv. by destruct (pnl row).
  - rewrite Hv. symmetry. apply calculate_pnl_fallthrough.
    unfold dict_get. by rewrite lookup_insert_eq.
  - intros api_zero api_down Hzero Hdown. unfold mark. f_equal.
    rewrite !calculate_pnl_fallthrough; [done|..];
      unfold dict_get; rewrite lookup_singleton_eq; simpl.
    + by rewrite (quote_of_fails _ Hdown).
    + by rewrite Hzero.
Qed.

Lemma calculate_pnl_zero_price_sample :
  calculate_pnl (sample_trade "LONG" NaN NaN) {[ "BTCUSDT" := Some 0 ]} = NaN.
Proof.
  apply (calculate_pnl_zero_price (sample_trade "LONG" NaN NaN)
           {[ "BTCUSDT" := Some 0 ]}); reflexivity.
Defined.

(** ** Price resolution *)

Lemma elem_of_unique (l : list string) (x : string) : x ∈ unique l ↔ x ∈ l.
Proof.
  induction l as [|y l IH]; simpl; [done|].
  rewrite !elem_of_cons, list_elem_of_filter, IH.
  destruct (decide (x = y)); tauto.
Qed.

Lemma NoDup_unique (l : list string) : NoDup (unique l).
Proof.
  induction l as [|y l IH]; simpl; [constructor|].
  constructor.
  - rewrite list_elem_of_filter. tauto.
  - by apply NoDup_filter.
Qed.

(** One lookup: exactly one query, never an exception, and the answer is
    a function of the feed's reply for that symbol. *)
Lemma get_current_price_run (api : feed) (symbol : string) (log : list string) :
  get_current_price api symbol log
    = (Return (quote_of (api symbol)), log ++ [symbol]).
Proof.
  unfold get_current_price, io_try_except, mbind, io_bind, requests_get.
  destruct (api symbol) as [| |[rc|] [p|]]; simpl; try done.
  - destruct rc; done.
  - destruct rc; done.
Qed.

Lemma fetch_prices_run (api : feed) (pairs : list string) (m : price_map)
    (log : list string) :
  fetch_prices api pairs m log
    = (Return (prices_after api pairs m), log ++ pairs).
Proof.
  revert m log. induction pairs as [|p pairs IH]; intros m log; simpl.
  - by rewrite app_nil_r.
  - unfold mbind, io_bind. rewrite get_current_price_run, IH.
    by rewrite <-app_assoc.
Qed.

Lemma prices_after_lookup (api : feed) (pairs : list string) (m : price_map)
    (s : string) :
  prices_after api pairs m !! s
    = if decide (s ∈ pairs) then Some (quote_of (api s)) else m !! s.
Proof.
  revert m. induction pairs as [|p pairs IH]; intros m.
  - by rewrite decide_False by apply not_elem_of_nil.
  - change (prices_after api (p :: pairs) m)
      with (prices_after api pairs (<[p := quote_of (api p)]> m)).
    rewrite IH. destruct (decide (s ∈ pairs)) as [Hin|Hnin].
    + by rewrite decide_True by (by right).
    + destruct (decide (s = p)) as [->|Hne].
      * rewrite decide_True by (by left). by rewrite lookup_insert_eq.
      * rewrite decide_False by (rewrite elem_of_cons; tauto).
        by rewrite lookup_insert_ne.
Qed.


(** C9.  Resolving the prices of a column of pairs queries each distinct
    pair once and no pair twice; no lookup raises; the entry of a pair
    is decided by the feed's reply for that pair alone, and is None
    whenever that lookup fails. *)
Theorem fetch_prices_isolated (api : feed) (pairs : list string) :
  ∃ current_prices queried,
    run (fetch_prices api (unique pairs) ∅) = (Return current_prices, queried) ∧
    NoDup queried ∧
    (∀ s, s ∈ queried ↔ s ∈ pairs) ∧
    (∀ s log, ∃ price,
       get_current_price api s log = (Return price, log ++ [s])) ∧
    (∀ s, s ∈ pairs → current_prices !! s = Some (quote_of (api s))) ∧
    (∀ s, s ∈ pairs → lookup_fails (api s) → current_prices !! s = Some None) ∧
    (∀ s, s ∉ pairs → current_prices !! s = None).
Proof.
  exists (prices_after api (unique pairs) ∅), (unique pairs).
  assert (∀ s, s ∈ pairs →
    prices_after api (unique pairs) ∅ !! s = Some (quote_of (api s))) as Hin.
  { intros s Hs. rewrite prices_after_lookup.
    by rewrite decide_True by (by apply elem_of_unique). }
  split_and!.
  - unfold run. by rewrite fetch_prices_run.
  - apply NoDup_unique.
  - apply elem_of_unique.
  - intros s log. eexists. apply get_current_price_run.
  - done.
  - intros s Hs Hf. by rewrite Hin, quote_of_fails.
  - intros s Hs. rewrite prices_after_lookup.
    by rewrite decide_False by (by rewrite elem_of_unique).
Qed.

(** Two feeds that agree on a pair give that pair the same entry, whatever
    they do on the other pairs. *)
Lemma fetch_prices_independent (api1 api2 : feed) (pairs : list string)
    (s : string) :
  api1 s = api2 s →
  prices_after api1 (unique pairs) ∅ !! s
    = prices_after api2 (unique pairs) ∅ !! s.
Proof. intros E. rewrite !prices_after_lookup, E. done. Qed.

Lemma fetch_prices_isolated_sample :
  ∃ current_prices queried,
    run (fetch_prices sample_feed
           (unique ["BTCUSDT"; "ETHUSDT"; "BTCUSDT"; "XRPUSDT"]) ∅)
      = (Return current_prices, queried) ∧
    NoDup queried ∧
    current_prices !! "BTCUSDT" = Some (Some (dec 110)) ∧
    current_prices !! "ETHUSDT" = Some None ∧
    current_prices !! "XRPUSDT" = Some None.
Proof.
  destruct (fetch_prices_isolated sample_feed
              ["BTCUSDT"; "ETHUSDT"; "BTCUSDT"; "XRPUSDT"])
    as (m & q & Hrun & Hnd & _ & _ & Hin & Hfail & _).
  exists m, q. split_and!; [done|done|..].
  - rewrite Hin by (by repeat constructor). reflexivity.
  - apply Hfail; [by repeat constructor|]. by left.
  - apply Hfail; [by repeat constructor|]. exact I.
Defined.

(** ** Loading *)

Lemma value_frame_run (api : feed) (frame : list trade) (log : list string) :
  value_frame api frame log
    = (Return (apply_calculate_pnl frame
                 (prices_after api (unique (pair <$> frame)) ∅)),
       log ++ unique (pair <$> frame)).
Proof.
  unfold value_frame, mbind, io_bind. by rewrite fetch_prices_run.
Qed.

(** Each row's [current_pnl] is decided by the row and the feed's reply
    for the row's pair. *)
Lemma apply_calculate_pnl_mark (api : feed) (pairs : list string)
    (frame : list trade) :
  (∀ row, row ∈ frame → pair row ∈ pairs) →
  apply_calculate_pnl frame (prices_after api (unique pairs) ∅)
    = mark api <$> frame.
Proof.
  intros Hin. unfold apply_calculate_pnl. apply list_fmap_ext.
  intros i row Hrow. unfold mark. f_equal. apply calculate_pnl_ext.
  unfold dict_get. rewrite prices_after_lookup, lookup_singleton_eq.
  rewrite decide_True; [done|].
  apply elem_of_unique, Hin. by eapply list_elem_of_lookup_2.
Qed.

Lemma value_frame_mark (api : feed) (frame : list trade) :
  run (value_frame api frame)
    = (Return (mark api <$> frame), unique (pair <$> frame)).
Proof.
  unfold run. rewrite value_frame_run. f_equal. f_equal.
  apply apply_calculate_pnl_mark. intros row Hrow.
  by apply list_elem_of_fmap_2.
Qed.

Lemma convert_row_raise (r : raw_row) (e : exn) :
  convert_row r = Raise e → e = ParserError
    (match r_timestamp r with Malformed s => s | _ => "" end).
Proof.
  unfold convert_row. destruct (r_timestamp r); py_simpl; congruence.
Qed.

Lemma convert_row_malformed (r : raw_row) (s : string) :
  r_timestamp r = Malformed s → convert_row r = Raise (ParserError s).
Proof. intros E. unfold convert_row. by rewrite E. Qed.

Lemma py_mapM_convert_malformed (records : list raw_row) (r : raw_row)
    (s : string) :
  r ∈ records → r_timestamp r = Malformed s →
  ∃ s', py_mapM convert_row records = Raise (ParserError s').
Proof.
  intros Hin Hbad.
  induction Hin as [r records|r r' records Hin IH]; cbn [py_mapM].
  - exists s. by rewrite (convert_row_malformed r s).
  - destruct (IH Hbad) as [s' Hs'].
    destruct (convert_row r') as [row|e] eqn:Hrow; simpl.
    + exists s'. by rewrite Hs'.
    + eexists. f_equal. by apply convert_row_raise in Hrow.
Qed.

Lemma py_mapM_convert_length (records : list raw_row) (frame : list trade) :
  py_mapM convert_row records = Return frame → length frame = length records.
Proof.
  revert frame. induction records as [|r records IH]; intros frame;
    cbn [py_mapM].
  - by intros [= <-].
  - destruct (convert_row r) as [row|e]; simpl; [|done].
    destruct (py_mapM convert_row records) as [rows|e]; simpl; [|done].
    intros [= <-]. simpl. f_equal. by apply IH.
Qed.

Lemma py_mapM_convert_parses (records : list raw_row) :
  (∀ r s, r ∈ records → r_timestamp r ≠ Malformed s) →
  ∃ frame, py_mapM convert_row records = Return frame.
Proof.
  induction records as [|r records IH]; intros Hok; cbn [py_mapM];
    [by eexists|].
  destruct IH as [frame Hframe].
  { intros r' s Hr'. apply Hok. by right. }
  rewrite Hframe. destruct (convert_row r) as [row|e] eqn:Hrow; simpl;
    [by eexists|].
  unfold convert_row in Hrow. pose proof (Hok r) as Hr.
  destruct (r_timestamp r) as [t| |s]; simpl in Hrow; [done..|].
  by destruct (Hr s); [left|].
Qed.

(** When every timestamp parses the whole ledger is loaded: no banner,
    one row of [df] per record. *)
Lemma load_all_rows (api : feed) (records : list raw_row) :
  (∀ r s, r ∈ records → r_timestamp r ≠ Malformed s) →
  ∃ frame queried,
    run (load api (Return records)) = (Return (Loaded frame None), queried) ∧
    total_trades frame = length records.
Proof.
  intros Hok. destruct (py_mapM_convert_parses records Hok) as [frame Hframe].
  destruct records as [|r records].
  { exists [], []. done. }
  exists (mark api <$> frame), (unique (pair <$> frame)).
  pose proof (value_frame_mark api frame) as Hv. unfold run in Hv.
  split.
  - unfold run, load, io_try_except, load_body, mbind, io_bind, lift_py.
    rewrite Hframe, Hv. done.
  - unfold total_trades. rewrite length_fmap.
    by apply py_mapM_convert_length.
Qed.

(** C8 (as the code has it).  One timestamp that [pd.to_datetime] cannot
    parse aborts the whole loading block: the error is shown as a single
    banner, [df] is reset to the empty frame (no row is counted or
    aggregated, the well-formed ones included) and no price is queried. *)
Theorem load_malformed_timestamp (api : feed) (records : list raw_row)
    (r : raw_row) (s : string) :
  r ∈ records → r_timestamp r = Malformed s →
  ∃ s', run (load api (Return records))
          = (Return (Loaded [] (Some (ParserError s'))), []).
Proof.
  intros Hin Hbad.
  destruct (py_mapM_convert_malformed records r s Hin Hbad) as [s' Hs'].
  exists s'. destruct records as [|r0 records]; [by inv Hin|].
  unfold run, load, io_try_except, load_body, mbind, io_bind, lift_py.
  by rewrite Hs'.
Qed.

(** ** Adding an unpriced Open row *)







(** ** Win rate *)

Lemma Qc_of_nat_nonzero (n : nat) : (0 < n)%nat → Qc_of_nat n ≠ 0.
Proof.
  intros Hn E. apply (f_equal this) in E. unfold Qc_of_nat, Qc_of_Z in E.
  simpl in E. injection E as E. lia.
Qed.

Lemma winning_split (df : list vrow) :
  winning_trades df = (closed_winners df + open_winners df)%nat.
Proof.
  unfold winning_trades, closed_winners, open_winners, closed_trades,
    open_trades, notna.
  induction df as [|r df IH]; [done|].
  rewrite !(filter_cons _ r df).
  destruct (isna (exit_price r)) eqn:Hx; simpl;
    repeat (destruct (decide _) as [?|?]; try done; simpl);
    rewrite ?filter_cons; repeat (destruct (decide _) as [?|?]; try done; simpl);
    lia.
Qed.

Lemma open_winners_none (df : list vrow) :
  (∀ r : vrow, r ∈ df → gt0 (pnl r) = true → notna (exit_price r) = true) →
  open_winners df = 0%nat.
Proof.
  intros Hwf. unfold open_winners, open_trades.
  rewrite list_filter_filter.
  destruct (filter _ df) as [|r rest] eqn:E; [done|].
  assert (r ∈ filter (λ x : vrow, gt0 (pnl x) ∧ isna (exit_price x)) df) as Hr
    by (rewrite E; left).
  apply list_elem_of_filter in Hr as [[Hw Ho] Hin].
  apply Is_true_true in Hw. apply Hwf in Hw; [|done].
  unfold notna in Hw. by destruct (isna (exit_price r)).
Qed.

(** C4 (as the code has it).  win_rate never raises; it is 0 on the empty
    frame and otherwise the number of rows with pnl > 0, Open or Closed,
    over the number of rows, times 100.  The rows counted are the Closed
    winners plus the Open rows with a positive stored pnl; the two counts
    agree when every row with pnl > 0 is Closed. *)
Theorem win_rate_counts_all_rows (df : list vrow) :
  win_rate df
    = Return (if decide (df = []) then 0
              else Qc_of_nat (winning_trades df) / Qc_of_nat (total_trades df)
                   * dec 100) ∧
  winning_trades df = (closed_winners df + open_winners df)%nat ∧
  ((∀ r : vrow, r ∈ df → gt0 (pnl r) = true → notna (exit_price r) = true) →
   win_rate df
     = Return (if decide (df = []) then 0
               else Qc_of_nat (closed_winners df) / Qc_of_nat (total_trades df)
                    * dec 100)).
Proof.
  assert (win_rate df
    = Return (if decide (df = []) then 0
              else Qc_of_nat (winning_trades df) / Qc_of_nat (total_trades df)
                   * dec 100)) as Hrate.
  { unfold win_rate, total_trades. destruct df as [|r df]; [done|].
    rewrite bool_decide_eq_true_2 by (simpl; lia).
    unfold py_div.
    rewrite bool_decide_eq_false_2 by (apply Qc_of_nat_nonzero; simpl; lia).
    by rewrite decide_False. }
  split_and!; [done|apply winning_split|].
  intros Hwf. rewrite Hrate, winning_split, (open_winners_none df Hwf).
  by rewrite Nat.add_0_r.
Qed.

Lemma win_rate_counts_all_rows_sample :
  win_rate scenario_frame
    = Return (dec 50).
Proof.
  destruct (win_rate_counts_all_rows scenario_frame)
    as (_ & _ & Hclosed).
  rewrite Hclosed.
  - f_equal. qc_eval.
  - intros r Hr _. apply list_elem_of_In in Hr.
    destruct Hr as [<-|[<-|[]]]; reflexivity.
Defined.

(** One Open row with 5 in its pnl cell: no Closed winner among one row,
    yet the win rate shown is 100. *)
Lemma win_rate_open_winner_sample :
  total_trades stray_frame = 1%nat ∧
  closed_winners stray_frame = 0%nat ∧
  win_rate stray_frame = Return (dec 100) ∧
  win_rate stray_frame
    ≠ Return (Qc_of_nat (closed_winners stray_frame)
              / Qc_of_nat (total_trades stray_frame)
              * dec 100).
Proof.
  split_and!; try (vm_compute; reflexivity).
  - vm_compute. f_equal. qc_eval.
  - intros E. vm_compute in E. discriminate E.
Qed.

(** ** Risk/reward ratio *)

Lemma risk_reward_ratio_no_stop (entry_price take_profit : Qc) :
  risk_reward_ratio entry_price 0 take_profit = Return 0.
Proof. reflexivity. Qed.

Lemma risk_reward_ratio_formula (entry_price stop_loss take_profit : Qc) :
  stop_loss ≠ 0 → stop_loss ≠ entry_price →
  risk_reward_ratio entry_price stop_loss take_profit
    = Return (Qcabs (take_profit - entry_price) / Qcabs (entry_price - stop_loss)).
Proof.
  intros Hsl Hne. unfold risk_reward_ratio, py_div.
  rewrite (bool_decide_eq_false_2 (stop_loss = 0)) by done. simpl.
  rewrite bool_decide_eq_false_2; [done|].
  intros E. apply Qcabs_null in E. apply Hne.
  rewrite <-(Qcplus_0_l stop_loss), <-E. ring.
Qed.

Lemma risk_reward_ratio_stop_at_entry (entry_price take_profit : Qc) :
  entry_price ≠ 0 →
  risk_reward_ratio entry_price entry_price take_profit = Raise ZeroDivisionError.
Proof.
  intros Hne. unfold risk_reward_ratio, py_div.
  rewrite (bool_decide_eq_false_2 (entry_price = 0)) by done. simpl.
  rewrite bool_decide_eq_true_2; [done|].
  rewrite Qc_sub_diag. apply Qcabs_pos, Qcle_refl.
Qed.

Example risk_reward_ratio_round_trip :
  risk_reward_ratio (dec 100) (dec 90) (dec 130) = Return (dec 3).
Proof. vm_compute. f_equal. qc_eval. Qed.

(** C5.  At entry_price = stop_loss = 100 (take_profit 130) the guard on
    stop_loss lets the division through and line 126 raises
    ZeroDivisionError instead of producing 0; building [new_trade]
    raises with it. *)
Theorem risk_reward_ratio_zero_division :
  risk_reward_ratio (dec 100) (dec 100) (dec 130) = Raise ZeroDivisionError ∧
  new_trade "BTCUSDT" "LONG" (dec 100) (dec 100) (dec 130) (dec 1000)
    = Raise ZeroDivisionError.
Proof. split; vm_compute; reflexivity. Qed.

(** ** Sorting by timestamp *)

Lemma ts_le_total (a b : datetime) : ts_le a b ∨ ts_le b a.
Proof. destruct a, b; simpl; try tauto. lia. Qed.

Lemma ts_le_refl (a : datetime) : ts_le a a.
Proof. by destruct (ts_le_total a a). Qed.

Lemma ts_le_trans (a b c : datetime) : ts_le a b → ts_le b c → ts_le a c.
Proof. destruct a, b, c; simpl; try tauto. lia. Qed.

Lemma ts_le_antisym (a b : datetime) : ts_le a b → ts_le b a → a = b.
Proof. destruct a, b; simpl; try tauto. intros. f_equal. lia. Qed.

Lemma stays_ahead_le (tie : tie_break) (r x : vrow) :
  stays_ahead tie r x = true → row_le r x.
Proof.
  unfold stays_ahead, row_le. destruct (timestamp r), (timestamp x); simpl;
    try done. intros H. apply orb_true_iff in H as [H|H].
  - apply Z.ltb_lt in H. lia.
  - apply andb_true_iff in H as [H _]. apply Z.eqb_eq in H. lia.
Qed.

Lemma stays_ahead_ge (tie : tie_break) (r x : vrow) :
  stays_ahead tie r x = false → row_le x r.
Proof.
  unfold stays_ahead, row_le. destruct (timestamp r), (timestamp x); simpl;
    try done. intros H. apply orb_false_iff in H as [H _].
  apply Z.ltb_ge in H. lia.
Qed.

Lemma insert_row_Permutation (tie : tie_break) (r : vrow) (l : list vrow) :
  insert_row tie r l ≡ₚ r :: l.
Proof.
  induction l as [|x l IH]; simpl; [done|].
  destruct (stays_ahead tie r x); [done|].
  rewrite IH. apply Permutation_swap.
Qed.

Lemma insert_row_sorted (tie : tie_break) (r : vrow) (l : list vrow) :
  StronglySorted row_le l → StronglySorted row_le (insert_row tie r l).
Proof.
  induction 1 as [|x l Hl IH Hx]; simpl.
  - by repeat constructor.
  - destruct (stays_ahead tie r x) eqn:Hrx.
    + apply stays_ahead_le in Hrx.
      constructor; [by constructor|]. constructor; [done|].
      eapply Forall_impl; [exact Hx|]. intros y Hy.
      unfold row_le in *. eauto using ts_le_trans.
    + apply stays_ahead_ge in Hrx. constructor; [done|].
      rewrite insert_row_Permutation. by constructor.
Qed.

(** Whatever the choice on ties, the rows come back rearranged, none
    lost or added, in ascending timestamp order. *)
Lemma sort_values_Permutation (tie : tie_break) (frame : list vrow) :
  sort_values tie frame ≡ₚ frame.
Proof.
  unfold sort_values. induction frame as [|r frame IH]; simpl; [done|].
  by rewrite insert_row_Permutation, IH.
Qed.

Lemma sort_values_sorted (tie : tie_break) (frame : list vrow) :
  StronglySorted row_le (sort_values tie frame).
Proof.
  unfold sort_values. induction frame as [|r frame IH]; simpl;
    [constructor|by apply insert_row_sorted].
Qed.

(** Without two rows of equal timestamp the choice on ties does not
    matter. *)
Lemma sort_values_no_ties (tie tie' : tie_break) (frame : list vrow) :
  (∀ a b : vrow, a ∈ frame → b ∈ frame → timestamp a = timestamp b → a = b) →
  sort_values tie frame = sort_values tie' frame.
Proof.
  intros Hties.
  apply (StronglySorted_unique_strong row_le);
    [|apply sort_values_sorted..|by rewrite !sort_values_Permutation].
  intros a b Ha Hb Hab Hba. apply Hties.
  - by rewrite <-(sort_values_Permutation tie).
  - by rewrite <-(sort_values_Permutation tie').
  - by apply ts_le_antisym.
Qed.

Lemma StronglySorted_lookup (l : list vrow) (i j : nat) (a b : vrow) :
  StronglySorted row_le l → (i ≤ j)%nat →
  l !! i = Some a → l !! j = Some b →
  ts_le (timestamp a) (timestamp b).
Proof.
  intros Hs. revert i j. induction Hs as [|x l Hl IH Hx]; intros i j Hij Ha Hb.
  - done.
  - destruct i as [|i], j as [|j]; simpl in *; simplify_eq.
    + apply ts_le_refl.
    + rewrite Forall_forall in Hx. apply Hx.
      by eapply list_elem_of_lookup_2.
    + lia.
    + apply (IH i j); [lia|done..].
Qed.

(** ** Running sums *)

Lemma cumsum_from_length (acc : Qc) (col : list num) :
  length (cumsum_from acc col) = length col.
Proof.
  revert acc. induction col as [|[|q] col IH]; intros acc; simpl;
    by rewrite ?IH.
Qed.

(** The running sum at a position is NaN where the column is NaN, and
    otherwise the numbers up to and including that position, added one at
    a time from the left. *)
Lemma cumsum_from_lookup (acc : Qc) (col : list num) (i : nat) (x : num) :
  col !! i = Some x →
  cumsum_from acc col !! i
    = Some (if isna x then NaN else Num (running_from acc (take (S i) col))).
Proof.
  revert acc i. induction col as [|[|q] col IH]; intros acc [|i] Hx;
    simpl in *; simplify_eq; simpl; try done.
  - by rewrite (IH acc i).
  - by rewrite (IH (acc + q) i).
Qed.


Lemma Qcplus_cancel_l (a x y : Qc) : a + x = a + y → x = y.
Proof.
  intros E. rewrite <-(Qcplus_0_l x), <-(Qcplus_0_l y).
  rewrite <-(Qcplus_opp_r a), (Qcplus_comm a (- a)), <-!Qcplus_assoc.
  by rewrite E.
Qed.

Lemma cumsum_from_inj (acc : Qc) (col1 col2 : list num) :
  cumsum_from acc col1 = cumsum_from acc col2 → col1 = col2.
Proof.
  revert acc col2.
  induction col1 as [|[|q1] col1 IH]; intros acc [|[|q2] col2]; simpl;
    try done.
  - intros H. f_equal. apply (IH acc). congruence.
  - intros H. assert (acc + q1 = acc + q2) as Eq by congruence.
    apply Qcplus_cancel_l in Eq as ->.
    f_equal. apply (IH (acc + q2)). congruence.
Qed.

Lemma fmap_eq_inj_on {A B} (g : A → B) (l1 l2 : list A) :
  (∀ a b, a ∈ l1 → b ∈ l2 → g a = g b → a = b) →
  g <$> l1 = g <$> l2 → l1 = l2.
Proof.
  revert l2. induction l1 as [|a l1 IH]; intros [|b l2] Hinj; simpl;
    try done.
  intros [= Hab E]. f_equal.
  - apply Hinj; [by left|by left|done].
  - apply IH; [|done]. intros a' b' Ha' Hb'. apply Hinj; by right.
Qed.

(** ** The equity curve *)

Lemma cumulative_pnl_length (sorted : list vrow) :
  length (cumulative_pnl sorted) = length sorted.
Proof.
  unfold cumulative_pnl, cumsum. by rewrite cumsum_from_length, length_fmap.
Qed.

Lemma cumulative_pnl_lookup (sorted : list vrow) (i : nat) (r : vrow) :
  sorted !! i = Some r →
  cumulative_pnl sorted !! i
    = Some (if isna (pnl r) then NaN
            else Num (running_total
                        ((λ r : vrow, pnl r) <$> take (S i) sorted))).
Proof.
  intros Hr. unfold cumulative_pnl, cumsum, running_total.
  rewrite (cumsum_from_lookup 0 _ i (pnl r)) by (by rewrite list_lookup_fmap, Hr).
  by rewrite fmap_take.
Qed.

Lemma equity_curve_lookup (sorted : list vrow) (i : nat) (r : vrow) :
  sorted !! i = Some r →
  equity_curve sorted !! i
    = Some (timestamp r,
            if isna (pnl r) then NaN
            else Num (running_total
                        ((λ r : vrow, pnl r) <$> take (S i) sorted))).
Proof.
  intros Hr. unfold equity_curve.
  rewrite lookup_zip_with, list_lookup_fmap, Hr. simpl.
  by rewrite (cumulative_pnl_lookup sorted i r Hr).
Qed.

(** C6 (as the code has it).  The rows the curve is drawn from are exactly
    the Closed rows, in ascending timestamp order (rows without a
    timestamp last), whatever the sorting routine does with equal
    timestamps; the value at each row is the pnl of the rows up to it
    added one at a time in that order (NaN where the pnl is blank).
    Which of two rows of equal timestamp comes first is the routine's
    choice; when no two Closed rows share a timestamp that choice does
    not arise and the curve is determined. *)
Theorem equity_curve_sorted_running_sum (tie : tie_break) (df : list vrow) :
  sort_values tie (closed_trades df) ≡ₚ closed_trades df ∧
  (∀ r : vrow, r ∈ sort_values tie (closed_trades df)
     ↔ r ∈ df ∧ notna (exit_price r) = true) ∧
  (∀ (i j : nat) (a b : vrow),
     (i ≤ j)%nat →
     sort_values tie (closed_trades df) !! i = Some a →
     sort_values tie (closed_trades df) !! j = Some b →
     ts_le (timestamp a) (timestamp b)) ∧
  (∀ (i : nat) (r : vrow), sort_values tie (closed_trades df) !! i = Some r →
     equity_curve (sort_values tie (closed_trades df)) !! i
       = Some (timestamp r,
               if isna (pnl r) then NaN
               else Num (running_total
                           ((λ r : vrow, pnl r)
                              <$> take (S i) (sort_values tie (closed_trades df)))))) ∧
  ((∀ a b : vrow, a ∈ closed_trades df → b ∈ closed_trades df →
      timestamp a = timestamp b → a = b) →
   ∀ tie' : tie_break,
     sort_values tie' (closed_trades df) = sort_values tie (closed_trades df)).
Proof.
  split_and!.
  - apply sort_values_Permutation.
  - intros r. rewrite sort_values_Permutation. unfold closed_trades.
    rewrite list_elem_of_filter, Is_true_true. tauto.
  - intros i j a b. apply StronglySorted_lookup, sort_values_sorted.
  - apply equity_curve_lookup.
  - intros Hties tie'. by apply sort_values_no_ties.
Qed.

Lemma equity_curve_sorted_running_sum_sample :
  sort_values reverse_ties (closed_trades scenario_frame) = scenario_frame ∧
  equity_curve (sort_values reverse_ties (closed_trades scenario_frame)) !! 1%nat
    = Some (Some 2%Z, Num (dec 30)).
Proof.
  destruct (equity_curve_sorted_running_sum reverse_ties scenario_frame)
    as (_ & _ & _ & Hcurve & _).
  split; [reflexivity|].
  refine (eq_trans (Hcurve 1%nat (closed_at 2 (Num (dec (-20)))) eq_refl) _).
  simpl. do 3 f_equal. qc_eval.
Defined.

Lemma seventeen_ties_row (r : vrow) :
  r ∈ seventeen_ties → r = closed_at 5 (pnl r).
Proof.
  unfold seventeen_ties. intros Hr.
  apply list_elem_of_fmap in Hr as (k & -> & _). reflexivity.
Qed.

(** Seventeen Closed rows with one timestamp and pnl 1 to 17.  Ledger
    order is one ascending order and its reverse is another; the curve of
    the ledger order starts on 1 and that of the reverse on 17; and any
    order the sort returns other than the ledger order draws a curve
    other than the ledger-order one. *)
Lemma equity_curve_ties_sample :
  closed_trades seventeen_ties = seventeen_ties ∧
  sort_values ledger_order (closed_trades seventeen_ties) = seventeen_ties ∧
  sort_values reverse_ties (closed_trades seventeen_ties)
    = reverse seventeen_ties ∧
  cumulative_pnl seventeen_ties !! 0%nat = Some (Num (Qc_of_nat 1)) ∧
  cumulative_pnl (reverse seventeen_ties) !! 0%nat = Some (Num (Qc_of_nat 17)) ∧
  (∀ tie : tie_break,
     sort_values tie (closed_trades seventeen_ties) ≠ seventeen_ties →
     cumulative_pnl (sort_values tie (closed_trades seventeen_ties))
       ≠ cumulative_pnl seventeen_ties).
Proof.
  assert (closed_trades seventeen_ties = seventeen_ties) as Hclosed
    by (vm_compute; reflexivity).
  split_and!; [done|vm_compute; reflexivity|vm_compute; reflexivity| | |].
  - vm_compute. do 2 f_equal. qc_eval.
  - vm_compute. do 2 f_equal. qc_eval.
  - intros tie Hne Hcurve. apply Hne. rewrite Hclosed in *.
    unfold cumulative_pnl, cumsum in Hcurve.
    apply cumsum_from_inj in Hcurve.
    apply (fmap_eq_inj_on (λ r : vrow, pnl r)); [|done].
    intros a b Ha Hb Hab. rewrite sort_values_Permutation in Ha.
    rewrite (seventeen_ties_row a Ha), (seventeen_ties_row b Hb).
    by rewrite Hab.
Qed.






Lemma load_malformed_timestamp_sample :
  (sample_row (Malformed "yesterday") "BTCUSDT" (CellText "") (CellText ""))
    ∈ bad_ledger ∧
  ∃ s', run (load sample_feed (Return bad_ledger))
        = (Return (Loaded [] (Some (ParserError s'))), []).
Proof.
  split; [by repeat constructor|].
  apply (load_malformed_timestamp sample_feed bad_ledger
           (sample_row (Malformed "yesterday") "BTCUSDT" (CellText "") (CellText ""))
           "yesterday"); [by repeat constructor|reflexivity].
Defined.

(** The good row alone is loaded, counted and charted; with the
    unparseable row next to it the pass ends on the banner with an empty
    frame: two records, no trade counted, no Closed row left to chart, no
    per-row flag. *)
Lemma load_malformed_drops_ledger_sample :
  (∃ row, run (load sample_feed (Return good_ledger))
            = (Return (Loaded (row :: []) None), ("BTCUSDT" :: [])%list) ∧
          closed_trades (row :: []) = (row :: [])%list) ∧
  run (load sample_feed (Return bad_ledger))
    = (Return (Loaded [] (Some (ParserError "yesterday"))), []) ∧
  length bad_ledger = 2%nat ∧
  total_trades (df (Loaded [] (Some (ParserError "yesterday")))) = 0%nat ∧
  closed_trades (df (Loaded [] (Some (ParserError "yesterday")))) = [].
Proof.
  split_and!; [|reflexivity..].
  eexists. split; vm_compute; reflexivity.
Qed.

(** * Further properties of the code *)

(** ** Valuation: direction, price and blank cells *)

Lemma calculate_pnl_priced (row : trade) (prices : price_map) (p : Qc) :
  isna (exit_price row) = true →
  dict_get prices (pair row) = Some p →
  p ≠ 0 →
  calculate_pnl row prices
    = if String.eqb (direction row) "LONG"
      then fmul (fsub (Num p) (entry_price row)) (position_size row)
      else fmul (fsub (entry_price row) (Num p)) (position_size row).
Proof.
  intros Hopen Hget Hp. rewrite calculate_pnl_unfold_open, Hget by done.
  by rewrite bool_decide_eq_false_2.
Qed.

(** X1.  The valuation tests the direction cell against "LONG" only: a
    row with any other text there ("SHORT", "long", blank) is valued as
    a SHORT. *)
Theorem calculate_pnl_not_long_is_short (row : trade) (prices : price_map)
    (d : string) :
  d ≠ "LONG" →
  calculate_pnl (set_direction d row) prices
    = calculate_pnl (set_direction "SHORT" row) prices.
Proof.
  intros Hd. unfold calculate_pnl, set_direction. simpl.
  by rewrite (proj2 (String.eqb_neq d "LONG") Hd).
Qed.

Lemma calculate_pnl_not_long_is_short_sample :
  calculate_pnl (set_direction "long" (sample_trade "LONG" NaN NaN))
      {[ "BTCUSDT" := Some (dec 110) ]}
    = Num (dec (-100)).
Proof.
  rewrite (calculate_pnl_not_long_is_short (sample_trade "LONG" NaN NaN)
             {[ "BTCUSDT" := Some (dec 110) ]} "long") by discriminate.
  vm_compute. f_equal. qc_eval.
Defined.

(** X2.  On an Open row with numeric entry price and size and a usable
    price, the LONG and the SHORT valuations are opposite numbers. *)
Theorem calculate_pnl_mirror (row : trade) (prices : price_map) (p e s : Qc) :
  isna (exit_price row) = true →
  dict_get prices (pair row) = Some p →
  p ≠ 0 →
  entry_price row = Num e →
  position_size row = Num s →
  ∃ v : Qc,
    calculate_pnl (set_direction "LONG" row) prices = Num v ∧
    calculate_pnl (set_direction "SHORT" row) prices = Num (- v).
Proof.
  intros Hopen Hget Hp He Hs. exists ((p - e) * s).
  rewrite !(calculate_pnl_priced _ prices p) by done. simpl.
  rewrite He, Hs. simpl. split; [done|]. f_equal. ring.
Qed.

Lemma calculate_pnl_mirror_sample :
  ∃ v : Qc,
    calculate_pnl (set_direction "LONG" (sample_trade "LONG" NaN NaN))
        {[ "BTCUSDT" := Some (dec 110) ]} = Num v ∧
    calculate_pnl (set_direction "SHORT" (sample_trade "LONG" NaN NaN))
        {[ "BTCUSDT" := Some (dec 110) ]} = Num (- v).
Proof.
  apply (calculate_pnl_mirror (sample_trade "LONG" NaN NaN)
           {[ "BTCUSDT" := Some (dec 110) ]} (dec 110) (dec 100) (dec 10));
    [reflexivity|vm_compute; reflexivity|qc_neq|reflexivity|reflexivity].
Defined.

(** X3.  With a non-negative size, the value of an Open LONG row does not
    fall when the price rises, and the value of any other Open row does
    not rise. *)
Theorem calculate_pnl_monotone (row : trade) (m1 m2 : price_map)
    (p1 p2 e s : Qc) :
  isna (exit_price row) = true →
  entry_price row = Num e →
  position_size row = Num s →
  0 ≤ s →
  dict_get m1 (pair row) = Some p1 → p1 ≠ 0 →
  dict_get m2 (pair row) = Some p2 → p2 ≠ 0 →
  p1 ≤ p2 →
  ∃ v1 v2 : Qc,
    calculate_pnl row m1 = Num v1 ∧
    calculate_pnl row m2 = Num v2 ∧
    (direction row = "LONG" → v1 ≤ v2) ∧
    (direction row ≠ "LONG" → v2 ≤ v1).
Proof.
  intros Hopen He Hs Hs0 Hg1 Hp1 Hg2 Hp2 Hle.
  rewrite (calculate_pnl_priced row m1 p1), (calculate_pnl_priced row m2 p2)
    by done.
  rewrite He, Hs. destruct (String.eqb (direction row) "LONG") eqn:Hd; simpl.
  - do 2 eexists. split_and!; [done|done| |].
    + intros _. apply Qcmult_le_mono_nonneg_r; [done|].
      by apply Qcplus_le_mono_r.
    + intros Hne. by apply String.eqb_eq in Hd.
  - do 2 eexists. split_and!; [done|done| |].
    + intros Hl. rewrite Hl in Hd. discriminate.
    + intros _. apply Qcmult_le_mono_nonneg_r; [done|].
      apply Qcplus_le_mono_l. by apply Qcopp_le_compat.
Qed.

Lemma calculate_pnl_monotone_sample :
  ∃ v1 v2 : Qc,
    calculate_pnl (sample_trade "LONG" NaN NaN) {[ "BTCUSDT" := Some (dec 90) ]}
      = Num v1 ∧
    calculate_pnl (sample_trade "LONG" NaN NaN) {[ "BTCUSDT" := Some (dec 110) ]}
      = Num v2 ∧
    v1 ≤ v2.
Proof.
  destruct (calculate_pnl_monotone (sample_trade "LONG" NaN NaN)
              {[ "BTCUSDT" := Some (dec 90) ]} {[ "BTCUSDT" := Some (dec 110) ]}
              (dec 90) (dec 110) (dec 100) (dec 10))
    as (v1 & v2 & H1 & H2 & Hlong & _);
    [reflexivity|reflexivity|reflexivity|by vm_compute
    |vm_compute; reflexivity|qc_neq|vm_compute; reflexivity|qc_neq
    |by vm_compute|].
  exists v1, v2. split_and!; [done|done|]. by apply Hlong.
Defined.

(** X4.  On an Open row with a usable price the value is a number exactly
    when both the entry price and the size are numbers: a blank in either
    cell makes current_pnl NaN. *)
Theorem calculate_pnl_number_iff (row : trade) (prices : price_map) (p : Qc) :
  isna (exit_price row) = true →
  dict_get prices (pair row) = Some p →
  p ≠ 0 →
  notna (calculate_pnl row prices) = true
    ↔ notna (entry_price row) = true ∧ notna (position_size row) = true.
Proof.
  intros Hopen Hget Hp. rewrite (calculate_pnl_priced row prices p) by done.
  destruct (String.eqb _ _), (entry_price row), (position_size row);
    simpl; unfold notna; simpl; intuition congruence.
Qed.

Lemma calculate_pnl_number_iff_sample :
  notna (calculate_pnl (sample_trade "LONG" NaN NaN)
           {[ "BTCUSDT" := Some (dec 110) ]}) = true.
Proof.
  apply (calculate_pnl_number_iff (sample_trade "LONG" NaN NaN)
           {[ "BTCUSDT" := Some (dec 110) ]} (dec 110));
    [reflexivity|vm_compute; reflexivity|qc_neq|by split].
Defined.

(** ** One lookup *)


(** ** Risk/reward ratio *)

Lemma Qcabs_zero_iff (x : Qc) : Qcabs x = 0 ↔ x = 0.
Proof.
  split; [apply Qcabs_null|]. intros ->. apply Qcabs_pos, Qcle_refl.
Qed.

Lemma Qc_sub_zero_iff (x y : Qc) : x - y = 0 ↔ y = x.
Proof.
  split.
  - intros E. rewrite <-(Qcplus_0_l y), <-E. ring.
  - intros ->. ring.
Qed.

(** X6.  Computing the ratio raises exactly when a stop loss is given
    (non-zero) and equals the entry price, and what it raises is
    ZeroDivisionError; [new_trade] raises in the same cases. *)
Theorem risk_reward_ratio_raises_iff (entry_price stop_loss take_profit : Qc) :
  (raises (risk_reward_ratio entry_price stop_loss take_profit)
     ↔ stop_loss ≠ 0 ∧ stop_loss = entry_price) ∧
  (∀ e, risk_reward_ratio entry_price stop_loss take_profit = Raise e →
     e = ZeroDivisionError) ∧
  (∀ pair direction position_size,
     raises (new_trade pair direction entry_price stop_loss take_profit
               position_size)
       ↔ raises (risk_reward_ratio entry_price stop_loss take_profit)).
Proof.
  unfold raises, new_trade, risk_reward_ratio, py_div.
  destruct (decide (stop_loss = 0)) as [Hz|Hz].
  { rewrite (bool_decide_eq_true_2 _ Hz). simpl.
    split_and!; [split; [intros [e ?]|intros [? _]]; done|done|].
    intros. split; intros [e ?]; done. }
  rewrite (bool_decide_eq_false_2 _ Hz). simpl.
  destruct (decide (Qcabs (entry_price - stop_loss) = 0)) as [Hd|Hd].
  - rewrite (bool_decide_eq_true_2 _ Hd).
    apply (proj1 (Qcabs_zero_iff _)) in Hd.
    apply (proj1 (Qc_sub_zero_iff _ _)) in Hd.
    split_and!; [split; [intros _; by split|by eexists]|congruence|].
    intros. split; intros _; by eexists.
  - rewrite (bool_decide_eq_false_2 _ Hd).
    rewrite Qcabs_zero_iff, Qc_sub_zero_iff in Hd.
    split_and!; [split; [intros [e ?]; done|intros [_ ?]; done]|done|].
    intros. split; intros [e ?]; done.
Qed.

(** X7.  A ratio that is computed is never negative, whatever side of the
    entry the stop and the target lie on. *)
Theorem risk_reward_ratio_nonneg (entry_price stop_loss take_profit r : Qc) :
  risk_reward_ratio entry_price stop_loss take_profit = Return r →
  0 ≤ r.
Proof.
  unfold risk_reward_ratio, py_div.
  destruct (bool_decide (stop_loss = 0)); simpl.
  { intros [= <-]. apply Qcle_refl. }
  destruct (bool_decide (Qcabs (entry_price - stop_loss) = 0)) eqn:Hd;
    [done|].
  intros [= <-]. apply bool_decide_eq_false in Hd.
  apply Qcmult_nonneg_nonneg; [apply Qcabs_nonneg|].
  apply Qclt_le_weak, Qcinv_pos.
  destruct (Qcle_lt_or_eq _ _ (Qcabs_nonneg (entry_price - stop_loss)));
    [done|congruence].
Qed.

(** A SHORT-looking setup entered with the target above the entry: entry
    100, stop 110, target 130 still gives the ratio 3. *)
Lemma risk_reward_ratio_nonneg_sample : 0 ≤ dec 3.
Proof.
  apply (risk_reward_ratio_nonneg (dec 100) (dec 110) (dec 130) (dec 3)).
  vm_compute. f_equal. qc_eval.
Defined.

(** ** The loading block as a whole *)

Lemma convert_row_parses (r : raw_row) :
  parses r → convert_row r = Return (coerce_row r).
Proof.
  unfold convert_row, coerce_row, parses. by destruct (r_timestamp r).
Qed.

Lemma py_mapM_convert_coerce (records : list raw_row) :
  (∀ r, r ∈ records → parses r) →
  py_mapM convert_row records = Return (coerce_row <$> records).
Proof.
  induction records as [|r records IH]; intros Hok; cbn [py_mapM]; [done|].
  rewrite IH by (intros r' Hr'; apply Hok; by right).
  by rewrite convert_row_parses by (apply Hok; by left).
Qed.

Lemma length_unique (l : list string) : (length (unique l) ≤ length l)%nat.
Proof.
  induction l as [|x l IH]; simpl; [done|].
  pose proof (length_filter (λ y, y ≠ x) (unique l)). lia.
Qed.

Lemma load_parsed_run (api : feed) (records : list raw_row) :
  (∀ r, r ∈ records → parses r) →
  run (load api (Return records))
    = (Return (Loaded ((λ r, mark api (coerce_row r)) <$> records) None),
       unique (r_pair <$> records)).
Proof.
  intros Hok. destruct records as [|r records]; [done|].
  pose proof (py_mapM_convert_coerce _ Hok) as Hframe.
  pose proof (value_frame_mark api (coerce_row <$> (r :: records))) as Hv.
  unfold run in *.
  unfold load, io_try_except, load_body, mbind, io_bind, lift_py.
  rewrite Hframe, Hv. by rewrite <-!list_fmap_compose.
Qed.

(** X8.  When every timestamp parses (blank ones included), the frame has
    one row per record, in ledger order, each cell coerced and each row
    valued against the feed's reply for its own pair; no banner is shown,
    and the feed is queried once per distinct pair, in order of first
    appearance: never more queries than rows. *)
Theorem load_parsed_ledger (api : feed) (records : list raw_row) :
  (∀ r, r ∈ records → parses r) →
  run (load api (Return records))
    = (Return (Loaded ((λ r, mark api (coerce_row r)) <$> records) None),
       unique (r_pair <$> records)) ∧
  (length (unique (r_pair <$> records)) ≤ length records)%nat.
Proof.
  intros Hok. split; [by apply load_parsed_run|].
  etrans; [apply length_unique|]. by rewrite length_fmap.
Qed.

Lemma mixed_ledger_parses (r : raw_row) : r ∈ mixed_ledger → parses r.
Proof.
  intros Hr. apply list_elem_of_In in Hr.
  destruct Hr as [<-|[<-|[<-|[]]]]; exact I.
Qed.

Lemma load_parsed_ledger_sample :
  run (load sample_feed (Return mixed_ledger))
    = (Return (Loaded ((λ r, mark sample_feed (coerce_row r)) <$> mixed_ledger)
                 None),
       unique (r_pair <$> mixed_ledger)) ∧
  (length (unique (r_pair <$> mixed_ledger)) ≤ length mixed_ledger)%nat.
Proof.
  apply (load_parsed_ledger sample_feed mixed_ledger). apply mixed_ledger_parses.
Defined.


(** X10.  The banner names the first timestamp, in ledger order, that
    does not parse. *)
Theorem load_first_malformed (api : feed) (good rest : list raw_row)
    (r : raw_row) (s : string) :
  (∀ r', r' ∈ good → parses r') →
  r_timestamp r = Malformed s →
  run (load api (Return (good ++ r :: rest)))
    = (Return (Loaded [] (Some (ParserError s))), []).
Proof.
  intros Hgood Hbad.
  assert (py_mapM convert_row (good ++ r :: rest) = Raise (ParserError s))
    as Hraise.
  { induction good as [|g good IH]; cbn [py_mapM app].
    - by rewrite (convert_row_malformed r s Hbad).
    - rewrite IH by (intros r' Hr'; apply Hgood; by right).
      by rewrite convert_row_parses by (apply Hgood; by left). }
  destruct good as [|g good];
    unfold run, load, io_try_except, load_body, mbind, io_bind, lift_py;
    simpl app; by rewrite Hraise.
Qed.

Lemma load_first_malformed_sample :
  run (load sample_feed (Return (mixed_ledger
         ++ sample_row (Malformed "soon") "BTCUSDT" (CellText "") (CellText "")
         :: bad_ledger)))
    = (Return (Loaded [] (Some (ParserError "soon"))), []).
Proof.
  apply (load_first_malformed sample_feed mixed_ledger bad_ledger
           (sample_row (Malformed "soon") "BTCUSDT" (CellText "") (CellText ""))
           "soon"); [apply mixed_ledger_parses|reflexivity].
Defined.

(** X11.  A loaded row is Closed exactly when its exit_price cell holds a
    number: text of any kind in that cell, blank or not, loads as an Open
    row.  The Closed and the Open rows of the frame are the records with a
    number, respectively with text, in that cell, in ledger order. *)
Theorem load_classifies_by_exit_cell (api : feed) (records : list raw_row) :
  (∀ r, r ∈ records → parses r) →
  ∃ (l : loaded) (queried : list string),
    run (load api (Return records)) = (Return l, queried) ∧
    closed_trades (df l)
      = (λ r, mark api (coerce_row r))
          <$> filter (λ r, is_number (r_exit_price r)) records ∧
    open_trades (df l)
      = (λ r, mark api (coerce_row r))
          <$> filter (λ r, ¬ is_number (r_exit_price r)) records.
Proof.
  intros Hok. do 2 eexists. split; [by apply load_parsed_run|]. simpl.
  clear Hok. unfold closed_trades, open_trades.
  induction records as [|r records [IHc IHo]]; [done|].
  rewrite fmap_cons, !filter_cons, IHc, IHo.
  unfold mark at 1 3. simpl. unfold notna.
  destruct (r_exit_price r); simpl; split; done.
Qed.

Lemma load_classifies_by_exit_cell_sample :
  ∃ (l : loaded) (queried : list string),
    run (load sample_feed (Return mixed_ledger)) = (Return l, queried) ∧
    closed_trades (df l)
      = (λ r, mark sample_feed (coerce_row r))
          <$> filter (λ r, is_number (r_exit_price r)) mixed_ledger ∧
    open_trades (df l)
      = (λ r, mark sample_feed (coerce_row r))
          <$> filter (λ r, ¬ is_number (r_exit_price r)) mixed_ledger.
Proof.
  apply (load_classifies_by_exit_cell sample_feed mixed_ledger).
  apply mixed_ledger_parses.
Defined.

(** ** The dashboard figures *)

Lemma calculate_pnl_exit_recorded (row : trade) (prices : price_map) :
  isna (exit_price row) = false → calculate_pnl row prices = pnl row.
Proof. intros Hx. unfold calculate_pnl. by rewrite Hx. Qed.

(** X12.  The current_pnl column of the frame, row by row: the loading
    block keeps the rows and their order; a Closed row carries its stored
    pnl, an Open row whose pair got no usable price carries its stored
    pnl too, and an Open row whose pair got the price [p] carries the
    mark-to-market value at [p]. *)
Theorem current_pnl_column (api : feed) (frame : list trade) :
  ∃ (valued : list vrow) (queried : list string),
    run (value_frame api frame) = (Return valued, queried) ∧
    length valued = length frame ∧
    ∀ (i : nat) (row : trade), frame !! i = Some row →
      ∃ r : vrow,
        valued !! i = Some r ∧ tr r = row ∧
        (notna (exit_price row) = true → current_pnl r = pnl row) ∧
        (truthy (quote_of (api (pair row))) = false →
           current_pnl r = pnl row) ∧
        (∀ p, isna (exit_price row) = true →
           quote_of (api (pair row)) = Some p → p ≠ 0 →
           current_pnl r
             = if String.eqb (direction row) "LONG"
               then fmul (fsub (Num p) (entry_price row)) (position_size row)
               else fmul (fsub (entry_price row) (Num p)) (position_size row)).
Proof.
  do 2 eexists. split; [apply value_frame_mark|].
  split; [by rewrite length_fmap|].
  intros i row Hrow. exists (mark api row).
  split; [by rewrite list_lookup_fmap, Hrow|]. split; [done|].
  unfold mark. simpl. split_and!.
  - intros Hclosed. apply calculate_pnl_exit_recorded.
    unfold notna in Hclosed. by destruct (isna (exit_price row)).
  - intros Hq. apply calculate_pnl_fallthrough.
    unfold dict_get. by rewrite lookup_singleton_eq.
  - intros p Hopen Hq Hp. apply calculate_pnl_priced; [done| |done].
    unfold dict_get. by rewrite lookup_singleton_eq.
Qed.

Lemma current_pnl_column_sample :
  ∃ (valued : list vrow) (queried : list string),
    run (value_frame sample_feed
           [sample_trade "LONG" NaN NaN; unpriced_trade])
      = (Return valued, queried) ∧
    length valued = 2%nat ∧
    ∃ r : vrow, valued !! 1%nat = Some r ∧ current_pnl r = NaN.
Proof.
  destruct (current_pnl_column sample_feed
              [sample_trade "LONG" NaN NaN; unpriced_trade])
    as (valued & queried & Hrun & Hlen & Hrows).
  exists valued, queried. split_and!; [done|done|].
  destruct (Hrows 1%nat unpriced_trade eq_refl) as (r & Hr & _ & _ & Hq & _).
  exists r. split; [done|]. by rewrite Hq.
Defined.

(** X13.  Every row of the frame is either Closed or Open, never both:
    the two tables together hold the rows of the frame, and their sizes
    add up to total_trades. *)
Theorem closed_open_partition (df : list vrow) :
  closed_trades df ++ open_trades df ≡ₚ df ∧
  total_trades df = (length (closed_trades df) + length (open_trades df))%nat ∧
  (∀ r : vrow, r ∈ closed_trades df → r ∉ open_trades df).
Proof.
  assert (closed_trades df ++ open_trades df ≡ₚ df) as Hp.
  { unfold closed_trades, open_trades, notna.
    induction df as [|r df IH]; [done|].
    rewrite !filter_cons. destruct (isna (exit_price r)); simpl.
    - by rewrite <-Permutation_middle, IH.
    - by rewrite IH. }
  split_and!; [done| |].
  - unfold total_trades. rewrite <-length_app. symmetry.
    by apply Permutation_length.
  - unfold closed_trades, open_trades, notna. intros r.
    rewrite !list_elem_of_filter. intros [Hc _] [Ho _].
    by destruct (isna (exit_price r)).
Qed.

Lemma Qc_of_nat_le (n m : nat) : (n ≤ m)%nat → Qc_of_nat n ≤ Qc_of_nat m.
Proof.
  intros Hnm. unfold Qc_of_nat, Qc_of_Z, Qcle. simpl.
  rewrite <-Zle_Qle. lia.
Qed.

(** X14.  The win rate shown is always between 0 and 100. *)
Theorem win_rate_bounds (df : list vrow) (w : Qc) :
  win_rate df = Return w → 0 ≤ w ∧ w ≤ dec 100.
Proof.
  unfold win_rate, py_div, total_trades, winning_trades.
  destruct df as [|r df].
  { intros [= <-]. split; [apply Qcle_refl|by vm_compute]. }
  rewrite bool_decide_eq_true_2 by (simpl; lia).
  set (W := length (filter _ (r :: df))). set (T := length (r :: df)).
  assert (W ≤ T)%nat as HWT by apply length_filter.
  assert (0 < T)%nat as HT by (unfold T; simpl; lia).
  rewrite bool_decide_eq_false_2 by (by apply Qc_of_nat_nonzero).
  intros [= <-].
  assert (0 < Qc_of_nat T) as HTpos.
  { destruct (Qcle_lt_or_eq 0 (Qc_of_nat T)) as [?|E]; [|done|].
    - apply (Qc_of_nat_le 0 T). lia.
    - symmetry in E. by apply Qc_of_nat_nonzero in E. }
  assert (0 ≤ dec 100) as H100 by (by vm_compute).
  assert (0 ≤ / Qc_of_nat T) as Hinv by (by apply Qclt_le_weak, Qcinv_pos).
  split.
  - apply Qcmult_nonneg_nonneg; [|done].
    apply Qcmult_nonneg_nonneg; [|done]. apply (Qc_of_nat_le 0 W). lia.
  - rewrite <-(Qcmult_1_l (dec 100)) at 2.
    apply Qcmult_le_mono_nonneg_r; [done|].
    rewrite <-(Qcmult_inv_r (Qc_of_nat T)) by (by apply Qc_of_nat_nonzero).
    apply Qcmult_le_mono_nonneg_r; [done|]. by apply Qc_of_nat_le.
Qed.

Lemma win_rate_bounds_sample : 0 ≤ dec 50 ∧ dec 50 ≤ dec 100.
Proof.
  apply (win_rate_bounds scenario_frame (dec 50)).
  vm_compute. f_equal. qc_eval.
Defined.

(** X15.  The counts and the win rate do not depend on the order of the
    rows in the ledger: total_trades, the number of winners, the sizes of
    the Closed and Open tables, and win_rate. *)
Theorem counts_order_independent (df df' : list vrow) :
  df ≡ₚ df' →
  total_trades df = total_trades df' ∧
  winning_trades df = winning_trades df' ∧
  length (closed_trades df) = length (closed_trades df') ∧
  length (open_trades df) = length (open_trades df') ∧
  win_rate df = win_rate df'.
Proof.
  intros Hp.
  assert (total_trades df = total_trades df') as Ht
    by (unfold total_trades; by rewrite Hp).
  assert (winning_trades df = winning_trades df') as Hw
    by (unfold winning_trades; by rewrite Hp).
  split_and!.
  - done.
  - done.
  - unfold closed_trades. by rewrite Hp.
  - unfold open_trades. by rewrite Hp.
  - unfold win_rate. by rewrite Ht, Hw.
Qed.

Lemma counts_order_independent_sample :
  total_trades scenario_frame = total_trades (reverse scenario_frame) ∧
  winning_trades scenario_frame = winning_trades (reverse scenario_frame) ∧
  length (closed_trades scenario_frame)
    = length (closed_trades (reverse scenario_frame)) ∧
  length (open_trades scenario_frame)
    = length (open_trades (reverse scenario_frame)) ∧
  win_rate scenario_frame = win_rate (reverse scenario_frame).
Proof.
  apply (counts_order_independent scenario_frame (reverse scenario_frame)).
  symmetry. apply reverse_Permutation.
Defined.

(** ** A new trade, once saved *)

(** X16.  A trade built by the form and read back from the sheet loads as
    an Open row with a blank pnl, its entry price and size as entered: it
    adds one to total_trades and leaves the number of winners and the
    closed PnL as they were. *)
Theorem new_trade_loads_open (symbol side quality : string)
    (entry stop target size : Qc) (date : Z) (n : new_row) :
  new_trade symbol side entry stop target size = Return n →
  ∃ row : trade,
    convert_row (saved_record date quality n) = Return row ∧
    isna (exit_price row) = true ∧
    isna (pnl row) = true ∧
    entry_price row = Num entry ∧
    position_size row = Num size ∧
    ∀ (df : list vrow) (cp : num),
      total_trades (df ++ [VRow row cp]) = S (total_trades df) ∧
      winning_trades (df ++ [VRow row cp]) = winning_trades df ∧
      total_pnl (df ++ [VRow row cp]) = total_pnl df.
Proof.
  unfold new_trade.
  destruct (risk_reward_ratio entry stop target) as [rr|e];
    [|done].
  intros [= <-]. eexists. split; [reflexivity|]. simpl.
  split_and!; [done..|]. intros df cp.
  unfold total_trades, winning_trades, total_pnl, closed_trades.
  rewrite length_app, !filter_app, !filter_cons. simpl.
  rewrite !app_nil_r. split_and!; [lia|done|done].
Qed.

Lemma new_trade_loads_open_sample :
  ∃ (n : new_row) (row : trade),
    new_trade "BTCUSDT" "LONG" (dec 100) (dec 90) (dec 130) (dec 1000)
      = Return n ∧
    convert_row (saved_record 7 "A" n) = Return row ∧
    isna (exit_price row) = true ∧
    n_risk_reward_ratio n = dec 3.
Proof.
  eexists. 
  destruct (new_trade_loads_open "BTCUSDT" "LONG" "A"
              (dec 100) (dec 90) (dec 130) (dec 1000) 7 _ eq_refl)
    as (row & Hrow & Hopen & _).
  exists row. split_and!; [reflexivity|exact Hrow|exact Hopen|].
  simpl. qc_eval.
Defined.

(** ** The setup quality chart *)

Lemma count_notna_zero (col : list num) :
  count_notna col = 0%nat ↔ ∀ x, x ∈ col → isna x = true.
Proof.
  unfold count_notna, notna. induction col as [|x col IH].
  - split; [intros _ x Hx; by apply not_elem_of_nil in Hx|done].
  - rewrite filter_cons. destruct (isna x) eqn:Hx; simpl.
    + rewrite IH. split.
      * intros H y Hy. apply elem_of_cons in Hy as [->|Hy]; auto.
      * intros H y Hy. apply H. by right.
    + split; [done|]. intros H. specialize (H x (list_elem_of_here _ _)).
      congruence.
Qed.

Lemma quality_pnl_lookup (df : list vrow) (q : string) :
  quality_pnl df !! q
    = if decide (q ∈ (λ r : vrow, setup_quality r) <$> df)
      then Some (nanmean ((λ r : vrow, pnl r) <$> quality_group q df))
      else None.
Proof.
  unfold quality_pnl.
  set (f := λ q, (q, nanmean ((λ r : vrow, pnl r) <$> quality_group q df))).
  set (qs := (λ r : vrow, setup_quality r) <$> df).
  assert ((f <$> unique qs).*1 = unique qs) as Hkeys.
  { rewrite <-list_fmap_compose. by rewrite <-(list_fmap_id (unique qs)) at 2. }
  destruct (decide (q ∈ qs)) as [Hin|Hnin].
  - apply elem_of_list_to_map; [rewrite Hkeys; apply NoDup_unique|].
    apply (list_elem_of_fmap_2 f). by apply elem_of_unique.
  - apply not_elem_of_list_to_map. rewrite Hkeys. by rewrite elem_of_unique.
Qed.

(** X17.  The chart has a bar for a grade exactly when some row of the
    frame carries it, Open or Closed; and the bar of a grade is NaN
    exactly when every row of the grade has a blank pnl: one row with a
    number in its pnl cell, Open rows included, is enough for a mean. *)
Theorem quality_pnl_buckets (df : list vrow) (q : string) :
  (is_Some (quality_pnl df !! q)
     ↔ ∃ r : vrow, r ∈ df ∧ setup_quality r = q) ∧
  (∀ v, quality_pnl df !! q = Some v →
     (v = NaN
        ↔ ∀ r : vrow, r ∈ df → setup_quality r = q → isna (pnl r) = true)).
Proof.
  rewrite quality_pnl_lookup. split.
  - destruct (decide _) as [Hin|Hnin].
    + split; [intros _|by eexists].
      apply list_elem_of_fmap in Hin as (r & -> & Hr). by exists r.
    + split; [by intros [? ?]|]. intros (r & Hr & <-). destruct Hnin.
      by apply (list_elem_of_fmap_2 (λ r : vrow, setup_quality r)).
  - destruct (decide _) as [Hin|Hnin]; [|done]. intros v [= <-].
    unfold nanmean.
    set (col := (λ r : vrow, pnl r) <$> quality_group q df).
    assert (count_notna col = 0%nat
      ↔ ∀ r : vrow, r ∈ df → setup_quality r = q → isna (pnl r) = true)
      as Hblank.
    { rewrite count_notna_zero. unfold col, quality_group. split.
      - intros H r Hr Hq. apply H.
        apply (list_elem_of_fmap_2 (λ r : vrow, pnl r)).
        by apply list_elem_of_filter.
      - intros H x Hx. apply list_elem_of_fmap in Hx as (r & -> & Hr).
        apply list_elem_of_filter in Hr as [Hq Hr]. by apply H. }
    destruct (decide (count_notna col = 0%nat)) as [Hz|Hz].
    + rewrite (bool_decide_eq_true_2 _ Hz).
      split; [intros _; by apply Hblank|done].
    + rewrite (bool_decide_eq_false_2 _ Hz).
      split; [done|]. intros H. by apply Hblank in H.
Qed.

(** Grade A has a bar that is a number although one of its rows is an
    Open row with a blank pnl; there is no bar for grade C. *)
Lemma quality_pnl_buckets_sample :
  is_Some (quality_pnl graded_frame !! "A") ∧
  quality_pnl graded_frame !! "A" ≠ Some NaN ∧
  quality_pnl graded_frame !! "C" = None.
Proof.
  split_and!.
  - apply (proj1 (quality_pnl_buckets graded_frame "A")).
    exists (graded "A" (Num (dec 105)) (Num (dec 10))).
    split; [by repeat constructor|done].
  - intros Hnan.
    pose proof (proj1 (proj2 (quality_pnl_buckets graded_frame "A") NaN Hnan)
                  eq_refl (graded "A" (Num (dec 105)) (Num (dec 10)))) as H.
    by discriminate H; [repeat constructor|].
  - reflexivity.
Defined.

(** ** Steps of the equity curve *)

Lemma running_from_snoc (acc : Qc) (col : list num) (x : num) :
  running_from acc (col ++ x :: [])
    = match x with NaN => running_from acc col
      | Num q => running_from acc col + q end.
Proof. unfold running_from. by rewrite foldl_app. Qed.

(** X19.  The curve starts on the pnl of the first row.  After a point
    that is a number, a row with the pnl [q] puts the next point at that
    number plus [q], and a row with a blank pnl puts NaN there. *)
Theorem cumulative_pnl_steps (sorted : list vrow) :
  (∀ r : vrow, sorted !! 0%nat = Some r →
     cumulative_pnl sorted !! 0%nat = Some (pnl r)) ∧
  (∀ (i : nat) (a q : Qc) (r : vrow),
     cumulative_pnl sorted !! i = Some (Num a) →
     sorted !! S i = Some r →
     pnl r = Num q →
     cumulative_pnl sorted !! S i = Some (Num (a + q))) ∧
  (∀ (i : nat) (r : vrow),
     sorted !! i = Some r → pnl r = NaN →
     cumulative_pnl sorted !! i = Some NaN).
Proof.
  split_and!.
  - intros r Hr. rewrite (cumulative_pnl_lookup sorted 0 r Hr).
    destruct sorted as [|r0 rest]; simplify_eq/=.
    destruct (pnl r) eqn:Hq; simpl; [done|].
    unfold running_total, running_from. simpl.
    by rewrite Qcplus_0_l.
  - intros i a q r Ha Hr Hq.
    destruct (sorted !! i) as [ri|] eqn:Hri.
    2:{ apply lookup_ge_None in Hri. apply lookup_lt_Some in Ha.
        rewrite cumulative_pnl_length in Ha. lia. }
    rewrite (cumulative_pnl_lookup sorted i ri Hri) in Ha.
    rewrite (cumulative_pnl_lookup sorted (S i) r Hr), Hq. simpl.
    rewrite (take_S_r sorted (S i) r Hr), fmap_app. simpl.
    unfold running_total. rewrite running_from_snoc, Hq.
    destruct (isna (pnl ri)); [done|]. injection Ha as Ha.
    unfold running_total in Ha. congruence.
  - intros i r Hr Hq. by rewrite (cumulative_pnl_lookup sorted i r Hr), Hq.
Qed.

Lemma cumulative_pnl_steps_sample :
  cumulative_pnl scenario_frame !! 1%nat = Some (Num (dec 50 + dec (-20))).
Proof.
  apply (proj1 (proj2 (cumulative_pnl_steps scenario_frame))
           0%nat (dec 50) (dec (-20)) (closed_at 2 (Num (dec (-20))))).
  - vm_compute. do 2 f_equal. qc_eval.
  - reflexivity.
  - reflexivity.
Defined.

(** ** A feed that answers nothing *)

Lemma nansum_all_blank (col : list num) :
  (∀ x, x ∈ col → isna x = true) → nansum col = 0.
Proof.
  induction col as [|[|q] col IH]; intros Hall; simpl; [done| |].
  - apply IH. intros x Hx. apply Hall. by right.
  - specialize (Hall (Num q) (list_elem_of_here _ _)). done.
Qed.

(** X20.  When no lookup succeeds, every row keeps its stored pnl as
    current_pnl, so open PnL is the sum of the pnl cells of the Open
    rows: 0 when those cells are blank, as they are on rows written by
    the form. *)
Theorem feed_down_open_pnl (api : feed) (frame : list trade) :
  (∀ s, lookup_fails (api s)) →
  ∃ (valued : list vrow) (queried : list string),
    run (value_frame api frame) = (Return valued, queried) ∧
    (∀ r : vrow, r ∈ valued → current_pnl r = pnl r) ∧
    open_pnl valued = nansum ((λ r : vrow, pnl r) <$> open_trades valued) ∧
    ((∀ row, row ∈ frame → isna (exit_price row) = true →
        isna (pnl row) = true) →
     open_pnl valued = 0).
Proof.
  intros Hdown. do 2 eexists. split; [apply value_frame_mark|].
  assert (∀ r : vrow, r ∈ mark api <$> frame → current_pnl r = pnl r) as Hcur.
  { intros r Hr. apply list_elem_of_fmap in Hr as (row & -> & _).
    unfold mark. simpl. apply calculate_pnl_fallthrough.
    unfold dict_get. rewrite lookup_singleton_eq. simpl.
    by rewrite (quote_of_fails _ (Hdown (pair row))). }
  assert (open_pnl (mark api <$> frame)
    = nansum ((λ r : vrow, pnl r) <$> open_trades (mark api <$> frame)))
    as Hopen.
  { unfold open_pnl. f_equal. apply list_fmap_ext. intros i r Hr.
    apply Hcur. apply list_elem_of_lookup_2 in Hr.
    unfold open_trades in Hr. by apply list_elem_of_filter in Hr as [_ ?]. }
  split_and!; [done|done|].
  intros Hblank. rewrite Hopen. apply nansum_all_blank.
  intros x Hx. apply list_elem_of_fmap in Hx as (r & -> & Hr).
  unfold open_trades in Hr. apply list_elem_of_filter in Hr as [Ho Hr].
  apply list_elem_of_fmap in Hr as (row & -> & Hrow).
  unfold mark in *. simpl in *. apply Hblank; [done|].
  by apply Is_true_true.
Qed.

Lemma feed_down_open_pnl_sample :
  ∃ (valued : list vrow) (queried : list string),
    run (value_frame (λ _, NoResponse) (unpriced_trade :: []))
      = (Return valued, queried) ∧
    open_pnl valued = 0.
Proof.
  destruct (feed_down_open_pnl (λ _, NoResponse) (unpriced_trade :: []))
    as (valued & queried & Hrun & _ & _ & Hzero); [by intros s|].
  exists valued, queried. split; [done|]. apply Hzero.
  intros row Hrow _. apply list_elem_of_In in Hrow.
  destruct Hrow as [<-|[]]. reflexivity.
Defined.
